(** * brainboost_desktop_package: the change-aware capture engine of [Desktop.py]

    A shallow embedding of class [Desktop] (singleton, input collector,
    frame diff, persistence transaction) and the properties its
    specification states about it. *)

From Stdlib Require Import ZArith Lia.
From stdpp Require Import base list strings.

Open Scope Z_scope.

(** ** Exceptions and results *)

Inductive exn : Type :=
  | RuntimeError        (* raised by Desktop.__init__ *)
  | CvError             (* cv2.error *)
  | OperationalError    (* sqlite3.OperationalError *)
  | OSError
  | OcrError            (* whatever BBOcr.extract_text raises *)
  | ListenerError       (* pynput fails to start a listener *)
  | HandlerFault.       (* an exception raised inside an event handler *)

Inductive result (A : Type) : Type :=
  | Ok (a : A)
  | Raise (e : exn).
Arguments Ok {A} a.
Arguments Raise {A} e.

(** ** The cv2 operations used by the diff engine

    Frames are numpy arrays of shape (rows, cols, 3) with uint8 channels in
    BGR order; a frame is a list of rows, a row a list of pixels.  A
    single-channel image is a list of rows of intensities. *)

Record Pixel : Type := BGR { blue : Z; green : Z; red : Z }.

Abbreviation Frame := (list (list Pixel)).
Abbreviation Gray := (list (list Z)).

(** The dict {x, y, width, height}. *)
Record Rect : Type :=
  mkRect { rect_x : Z; rect_y : Z; rect_width : Z; rect_height : Z }.

(** numpy's [shape]: here the list of row lengths, so that ragged lists
    never compare equal to rectangular ones. *)
Definition shape {A} (m : list (list A)) : list nat := length <$> m.

Definition same_shape {A B} (a : list (list A)) (b : list (list B)) : bool :=
  bool_decide (shape a = shape b).

Definition absdiff_px (p q : Pixel) : Pixel :=
  BGR (Z.abs (blue p - blue q)) (Z.abs (green p - green q))
      (Z.abs (red p - red q)).

(** cv2.absdiff: per-element |a - b|; sizes must match. *)
Definition absdiff (a b : Frame) : result Frame :=
  if same_shape a b then Ok (zip_with (zip_with absdiff_px) a b)
  else Raise CvError.

(** cv2.cvtColor(_, COLOR_BGR2GRAY) on uint8 (OpenCV 4.x fixed point:
    Y = 0.114 B + 0.587 G + 0.299 R scaled by 2^15, rounded). *)
Definition gray_px (p : Pixel) : Z :=
  Z.shiftr (blue p * 3735 + green p * 19235 + red p * 9798 + Z.shiftl 1 14) 15.

Definition cvtColor_BGR2GRAY (f : Frame) : Gray := fmap (M:=list) gray_px <$> f.

(** cv2.threshold(_, thresh, maxval, THRESH_BINARY):
    dst = maxval if src > thresh else 0. *)
Definition threshold_px (thresh maxval v : Z) : Z :=
  if thresh <? v then maxval else 0.

Definition threshold (g : Gray) (thresh maxval : Z) : Gray :=
  fmap (M:=list) (threshold_px thresh maxval) <$> g.

Definition nonzero (v : Z) : bool := negb (v =? 0).

Definition row_nonzero (m : Gray) (i : nat) : bool :=
  match m !! i with Some row => existsb nonzero row | None => false end.

Definition col_nonzero (m : Gray) (j : nat) : bool :=
  existsb (fun row => match row !! j with Some v => nonzero v | None => false end) m.

(** smallest index in [i, i+n) satisfying p *)
Fixpoint find_first (p : nat -> bool) (i n : nat) : option nat :=
  match n with
  | O => None
  | S n' => if p i then Some i else find_first p (S i) n'
  end.

(** largest index below n satisfying p *)
Fixpoint find_last (p : nat -> bool) (n : nat) : option nat :=
  match n with
  | O => None
  | S n' => if p n' then Some n' else find_last p n'
  end.

Definition cols {A} (m : list (list A)) : nat :=
  match m with [] => O | row :: _ => length row end.

(** cv2.boundingRect on a mask: the up-right bounding rectangle of the
    non-zero pixels, (0,0,0,0) when there is none. *)
Definition boundingRect (m : Gray) : Rect :=
  match find_first (row_nonzero m) 0 (length m), find_last (row_nonzero m) (length m),
        find_first (col_nonzero m) 0 (cols m), find_last (col_nonzero m) (cols m) with
  | Some y0, Some y1, Some x0, Some x1 =>
      mkRect (Z.of_nat x0) (Z.of_nat y0)
             (Z.of_nat x1 - Z.of_nat x0 + 1) (Z.of_nat y1 - Z.of_nat y0 + 1)
  | _, _, _, _ => mkRect 0 0 0 0
  end.

(** numpy slicing img[y:y+h, x:x+w] for non-negative bounds. *)
Definition crop (img : Frame) (r : Rect) : Frame :=
  (fun row => take (Z.to_nat (rect_width r)) (drop (Z.to_nat (rect_x r)) row))
    <$> take (Z.to_nat (rect_height r)) (drop (Z.to_nat (rect_y r)) img).


(** Lines 123-126 of [_save_screenshot_diff]: the diff engine proper.  The
    frames are screen grabs, of at least one pixel each way; cv2 rejects
    arrays without pixels, which fall outside this definition. *)
Definition diff_mask (base_image new_img : Frame) : result Gray :=
  match absdiff base_image new_img with
  | Ok diff =>
      let gray_diff := cvtColor_BGR2GRAY diff in
      Ok (threshold gray_diff 30 255)
  | Raise e => Raise e
  end.

Definition diff_region (base_image new_img : Frame) : result Rect :=
  match diff_mask base_image new_img with
  | Ok diff_thresh => Ok (boundingRect diff_thresh)
  | Raise e => Raise e
  end.

(** ** Data model *)

(** The dicts built by the two listener callbacks. *)
Inductive InputEvent : Type :=
  | Keyboard (value : string) (timestamp : string)
  | Mouse (value : string) (position : Z * Z) (timestamp : string).

(** One element of [BBOcr.extract_text]'s result: result['text'] and the
    corners result['rect'] = (left, top, right, bottom). *)
Record OcrResult : Type :=
  mkOcrResult { ocr_text : string; ocr_rect : Z * Z * Z * Z }.

Record TextAnnotation : Type := mkAnnotation { text : string; rect : Rect }.

(** A row of table [snapshots]; the id is its position in the table.  The
    columns hold the values that the code serialises (PNG bytes, JSON). *)
Record SnapshotRecord : Type := mkRow {
  row_timestamp : string;
  row_type : string;
  row_data : Frame;
  row_position : Rect;
  row_text : list TextAnnotation;
  row_user_input : list InputEvent }.

(** The options that [Desktop] reads from BBConfig. *)
Record BBConfig : Type := mkConfig {
  snapshots_database_enabled : bool;
  snapshots_database_path : string;
  write_screenshots_to_files : bool;
  snapshot_images : string;
  monitor_user_input : bool }.

Inductive LogLine : Type :=
  | CapturedKeyPress (input_data : InputEvent)
  | CapturedMouseEvent (input_data : InputEvent)
  | ErrorInKeyPressHandler (e : exn)
  | ErrorStartingListeners (e : exn).

(** Everything a [Desktop] object acts on outside itself. *)
Record World : Type := mkWorld {
  config : BBConfig;
  has_snapshots_table : bool;             (* CREATE TABLE has run on the store *)
  snapshots : list SnapshotRecord;        (* rows of the store, oldest first *)
  connections_opened : nat;               (* successful sqlite3.connect calls *)
  collector_threads : nat;                (* started _monitor_user_input threads *)
  files : list (string * Frame);          (* image files on disk: path, content *)
  ocr_calls : list Frame;                 (* arguments of BBOcr.extract_text *)
  log : list LogLine }.                   (* BBLogger.log *)

(** The instance attributes. *)
Record Desktop : Type := mkDesktop {
  system : string;
  base_image : option Frame;
  conn : option nat;
  lock : bool;                            (* self.lock; true while held *)
  user_input_queue : list InputEvent;     (* queue.Queue, head first *)
  monitoring_user_input : bool }.

(** What the platform answers during one call. *)
Record Env : Type := mkEnv {
  platform_system : string;
  now_iso : string;                       (* datetime.now().isoformat() *)
  now_compact : string;                   (* strftime('%Y%m%d%H%M%S') *)
  db_openable : bool;                     (* sqlite3.connect succeeds *)
  fs_writable : bool;                     (* os.makedirs succeeds *)
  imwrite_ok : bool;                      (* cv2.imwrite returns True *)
  extract_text : Frame -> result (list OcrResult) }.

(** ** A state-and-exception monad: Python statements that mutate the
    state and may raise; a raise keeps the mutations made so far. *)

Definition M (S A : Type) : Type := S -> result A * S.

Definition ret {S A} (a : A) : M S A := fun s => (Ok a, s).

Definition bind {S A B} (m : M S A) (k : A -> M S B) : M S B :=
  fun s => match m s with
           | (Ok a, s') => k a s'
           | (Raise e, s') => (Raise e, s')
           end.

Definition raise {S A} (e : exn) : M S A := fun s => (Raise e, s).
Definition gets {S A} (f : S -> A) : M S A := fun s => (Ok (f s), s).
Definition modify {S} (f : S -> S) : M S unit := fun s => (Ok tt, f s).
Definition lift {S A} (r : result A) : M S A := fun s => (r, s).

(** try: body / except Exception as e: handler e *)
Definition try_except {S A} (body : M S A) (handler : exn -> M S A) : M S A :=
  fun s => match body s with
           | (Ok a, s') => (Ok a, s')
           | (Raise e, s') => handler e s'
           end.

Declare Scope py_scope.
Delimit Scope py_scope with py.
Notation "v <- c ;; k" := (bind c (fun v => k))
  (at level 100, c at next level, right associativity) : py_scope.
Notation "c ;; k" := (bind c (fun _ => k))
  (at level 100, right associativity) : py_scope.
Open Scope py_scope.

Abbreviation Method := (M (Desktop * World)).

(** *** Field updates *)

Definition with_base_image (v : option Frame) (d : Desktop) : Desktop :=
  mkDesktop (system d) v (conn d) (lock d) (user_input_queue d) (monitoring_user_input d).
Definition with_system (v : string) (d : Desktop) : Desktop :=
  mkDesktop v (base_image d) (conn d) (lock d) (user_input_queue d) (monitoring_user_input d).
Definition with_conn (v : option nat) (d : Desktop) : Desktop :=
  mkDesktop (system d) (base_image d) v (lock d) (user_input_queue d) (monitoring_user_input d).
Definition with_lock (v : bool) (d : Desktop) : Desktop :=
  mkDesktop (system d) (base_image d) (conn d) v (user_input_queue d) (monitoring_user_input d).
Definition with_queue (v : list InputEvent) (d : Desktop) : Desktop :=
  mkDesktop (system d) (base_image d) (conn d) (lock d) v (monitoring_user_input d).
Definition with_monitoring (v : bool) (d : Desktop) : Desktop :=
  mkDesktop (system d) (base_image d) (conn d) (lock d) (user_input_queue d) v.

Definition with_config (v : BBConfig) (w : World) : World :=
  mkWorld v (has_snapshots_table w) (snapshots w) (connections_opened w)
          (collector_threads w) (files w) (ocr_calls w) (log w).
Definition with_table (v : bool) (w : World) : World :=
  mkWorld (config w) v (snapshots w) (connections_opened w)
          (collector_threads w) (files w) (ocr_calls w) (log w).
Definition with_snapshots (v : list SnapshotRecord) (w : World) : World :=
  mkWorld (config w) (has_snapshots_table w) v (connections_opened w)
          (collector_threads w) (files w) (ocr_calls w) (log w).
Definition with_connections (v : nat) (w : World) : World :=
  mkWorld (config w) (has_snapshots_table w) (snapshots w) v
          (collector_threads w) (files w) (ocr_calls w) (log w).
Definition with_threads (v : nat) (w : World) : World :=
  mkWorld (config w) (has_snapshots_table w) (snapshots w) (connections_opened w)
          v (files w) (ocr_calls w) (log w).
Definition with_files (v : list (string * Frame)) (w : World) : World :=
  mkWorld (config w) (has_snapshots_table w) (snapshots w) (connections_opened w)
          (collector_threads w) v (ocr_calls w) (log w).
Definition with_ocr_calls (v : list Frame) (w : World) : World :=
  mkWorld (config w) (has_snapshots_table w) (snapshots w) (connections_opened w)
          (collector_threads w) (files w) v (log w).
Definition with_log (v : list LogLine) (w : World) : World :=
  mkWorld (config w) (has_snapshots_table w) (snapshots w) (connections_opened w)
          (collector_threads w) (files w) (ocr_calls w) v.

Definition self {A} (f : Desktop -> A) : Method A := gets (fun s => f (fst s)).
Definition set_self (f : Desktop -> Desktop) : Method unit :=
  modify (fun s => (f (fst s), snd s)).
Definition outside {A} (f : World -> A) : Method A := gets (fun s => f (snd s)).
Definition set_outside (f : World -> World) : Method unit :=
  modify (fun s => (fst s, f (snd s))).

(** *** Collaborators *)

Definition BBConfig_get {A} (option_ : BBConfig -> A) : Method A :=
  outside (fun w => option_ (config w)).

(** BBConfig.override('monitor_user_input', v) *)
Definition BBConfig_override_monitor_user_input (v : bool) : Method unit :=
  set_outside (fun w =>
    let c := config w in
    with_config (mkConfig (snapshots_database_enabled c) (snapshots_database_path c)
                          (write_screenshots_to_files c) (snapshot_images c) v) w).

Definition BBLogger_log (l : LogLine) : Method unit :=
  set_outside (fun w => with_log (log w ++ [l]) w).

(** sqlite3.connect(BBConfig.get('snapshots_database_path')) *)
Definition sqlite3_connect (env : Env) : Method nat :=
  if db_openable env then
    n <- outside connections_opened ;;
    set_outside (with_connections (S n)) ;;
    ret n
  else raise OperationalError.

(** CREATE TABLE IF NOT EXISTS snapshots (...) *)
Definition execute_create_table : Method unit := set_outside (with_table true).

(** INSERT INTO snapshots ...; fails when the table does not exist. *)
Definition execute_insert (row : SnapshotRecord) : Method unit :=
  t <- outside has_snapshots_table ;;
  if t then set_outside (fun w => with_snapshots (snapshots w ++ [row]) w)
  else raise OperationalError.

(** self.ocr.extract_text(img) *)
Definition ocr_extract_text (env : Env) (img : Frame) : Method (list OcrResult) :=
  set_outside (fun w => with_ocr_calls (ocr_calls w ++ [img]) w) ;;
  lift (extract_text env img).

(** threading.Thread(target=self._monitor_user_input, daemon=True).start() *)
Definition start_collector_thread : Method unit :=
  set_outside (fun w => with_threads (S (collector_threads w)) w).

(** posixpath.join(a, b) *)
Fixpoint ends_with_sep (s : string) : bool :=
  match s with
  | EmptyString => false
  | String _ s' => String.eqb s "/" || ends_with_sep s'
  end.

Definition starts_with_sep (s : string) : bool :=
  String.prefix "/" s.

Definition os_path_join (a b : string) : string :=
  if starts_with_sep b then b
  else if match a with EmptyString => true | _ => ends_with_sep a end then a +:+ b
  else a +:+ "/" +:+ b.

(** Opening [path] for writing: the file is created, or truncated and
    rewritten when it exists. *)
Fixpoint write_file (path : string) (img : Frame) (fs : list (string * Frame))
    : list (string * Frame) :=
  match fs with
  | [] => [(path, img)]
  | (p, f) :: fs' =>
      if String.eqb p path then (path, img) :: fs' else (p, f) :: write_file path img fs'
  end.

Fixpoint read_file (path : string) (fs : list (string * Frame)) : option Frame :=
  match fs with
  | [] => None
  | (p, f) :: fs' => if String.eqb p path then Some f else read_file path fs'
  end.

(** os.makedirs(snapshot_dir, exist_ok=True) raises OSError when the
    directory cannot be made. *)
Definition os_makedirs (env : Env) : Method unit :=
  if fs_writable env then ret tt else raise OSError.

(** cv2.imwrite(path, img) answers False when it cannot write; the caller
    drops the answer. *)
Definition cv2_imwrite (env : Env) (path : string) (img : Frame) : Method bool :=
  if imwrite_ok env then
    set_outside (fun w => with_files (write_file path img (files w)) w) ;;
    ret true
  else ret false.

(** queue.Queue *)
Definition Queue_put (e : InputEvent) : Method unit :=
  set_self (fun d => with_queue (user_input_queue d ++ [e]) d).

(** ** The methods of class Desktop *)

Definition init_database (env : Env) : Method unit :=
  enabled <- BBConfig_get snapshots_database_enabled ;;
  if enabled then
    c <- sqlite3_connect env ;;
    set_self (with_conn (Some c)) ;;
    execute_create_table
  else ret tt.

(** [_instance] is the class attribute Desktop._instance as the call finds
    it.  self.ocr = BBOcr() has no counterpart: the engine's answers are
    [extract_text] of the environment. *)
Definition __init__ (env : Env) (_instance : option nat) : Method unit :=
  match _instance with
  | Some _ => raise RuntimeError
  | None =>
      set_self (with_system (platform_system env)) ;;
      set_self (with_base_image None) ;;
      init_database env ;;
      c <- sqlite3_connect env ;;
      set_self (with_conn (Some c)) ;;
      set_self (with_lock false) ;;
      set_self (with_queue []) ;;
      set_self (with_monitoring false) ;;
      BBConfig_override_monitor_user_input true ;;
      monitor <- BBConfig_get monitor_user_input ;;
      if monitor then
        set_self (with_monitoring true) ;;
        start_collector_thread
      else ret tt
  end.

Definition get_thread_safe_connection (env : Env) : Method nat := sqlite3_connect env.

(** The three statements of a callback body, any of which may raise:
    building input_data (str(key), datetime.now()), the BBLogger.log call
    and the queue's put. *)
Inductive Stage : Type := BuildingData | Logging | Putting.

(** Statement [here] raising, as the environment decides: [fault] names the
    statement that raises and the exception.  A statement that raises has
    no effect of its own; a logger that raises after writing its line
    leaves what a raising put leaves.  One statement at most raises per
    event, so the BBLogger.log call of an except branch returns. *)
Definition statement_may_raise (fault : option (Stage * exn)) (here : Stage)
    : Method unit :=
  match fault, here with
  | Some (BuildingData, e), BuildingData
  | Some (Logging, e), Logging
  | Some (Putting, e), Putting => raise e
  | _, _ => ret tt
  end.

Definition on_key_press (key : string) (now : string) (fault : option (Stage * exn))
    : Method unit :=
  try_except
    (statement_may_raise fault BuildingData ;;
     let input_data := Keyboard key now in
     statement_may_raise fault Logging ;;
     BBLogger_log (CapturedKeyPress input_data) ;;
     statement_may_raise fault Putting ;;
     Queue_put input_data)
    (fun e => BBLogger_log (ErrorInKeyPressHandler e)).

Definition on_mouse_click (x y : Z) (button : string) (pressed : bool)
    (now : string) (fault : option (Stage * exn)) : Method unit :=
  statement_may_raise fault BuildingData ;;
  let input_data := Mouse (if pressed then "click" else "release") (x, y) now in
  statement_may_raise fault Logging ;;
  BBLogger_log (CapturedMouseEvent input_data) ;;
  statement_may_raise fault Putting ;;
  Queue_put input_data.

(** *** The collector thread

    pynput runs each callback on its listener's thread; a callback that
    raises stops that listener, and the exception stays with the listener
    until it is joined. *)

Inductive OsEvent : Type :=
  | KeyPress (key : string)
  | MouseClick (x y : Z) (button : string) (pressed : bool).

(** An event as the operating system delivers it: the time of observation
    and which statement of the callback, if any, raises while recording
    it. *)
Record Delivery : Type :=
  mkDelivery { os_event : OsEvent; observed_at : string; fault : option (Stage * exn) }.

Record Listeners : Type :=
  mkListeners { key_listener_running : bool; mouse_listener_running : bool }.

Definition run_callback (cb : Method unit) : Method bool :=
  try_except (cb ;; ret true) (fun _ => ret false).

Definition deliver (ev : Delivery) (ls : Listeners) : Method Listeners :=
  match os_event ev with
  | KeyPress key =>
      if key_listener_running ls then
        alive <- run_callback (on_key_press key (observed_at ev) (fault ev)) ;;
        ret (mkListeners alive (mouse_listener_running ls))
      else ret ls
  | MouseClick x y button pressed =>
      if mouse_listener_running ls then
        alive <- run_callback (on_mouse_click x y button pressed (observed_at ev) (fault ev)) ;;
        ret (mkListeners (key_listener_running ls) alive)
      else ret ls
  end.

Fixpoint listen (evs : list Delivery) (ls : Listeners) : Method Listeners :=
  match evs with
  | [] => ret ls
  | ev :: evs' => ls' <- deliver ev ls ;; listen evs' ls'
  end.

(** [start] is the outcome of entering the two listeners' [with] block;
    [evs] are the events the operating system delivers afterwards. *)
Definition _monitor_user_input (start : result unit) (evs : list Delivery)
    : Method Listeners :=
  try_except
    (lift start ;; listen evs (mkListeners true true))
    (fun e => BBLogger_log (ErrorStartingListeners e) ;; ret (mkListeners false false)).

(** *** The capture path *)

(** while not queue.empty(): user_inputs.append(queue.get()) *)
Fixpoint drain (queue user_inputs : list InputEvent)
    : list InputEvent * list InputEvent :=
  match queue with
  | [] => (user_inputs, [])
  | e :: queue' => drain queue' (user_inputs ++ [e])
  end.

Definition _save_user_input : Method (list InputEvent) :=
  q <- self user_input_queue ;;
  let '(user_inputs, q') := drain q [] in
  set_self (with_queue q') ;;
  ret user_inputs.

Definition annotation (result : OcrResult) : TextAnnotation :=
  let '(r0, r1, r2, r3) := ocr_rect result in
  mkAnnotation (ocr_text result) (mkRect r0 r1 (r2 - r0) (r3 - r1)).

Definition non_degenerate (r : Rect) : bool :=
  (0 <? rect_width r) && (0 <? rect_height r).

Definition _save_screenshot_diff (env : Env) (new_img : Frame) : Method unit :=
  base <- self base_image ;;
  match base with
  | None => set_self (with_base_image (Some new_img))
  | Some base =>
      region <- lift (diff_region base new_img) ;;
      ocr_results <- ocr_extract_text env new_img ;;
      let ocr_text_json := annotation <$> ocr_results in
      user_inputs <- _save_user_input ;;
      (if non_degenerate region then
         let cropped_diff := crop new_img region in
         _ <- get_thread_safe_connection env ;;
         let timestamp := now_iso env in
         execute_insert (mkRow timestamp "desktop_screenshot" cropped_diff region
                               ocr_text_json user_inputs)
       else ret tt) ;;
      set_self (with_base_image (Some new_img))
  end.

(** [combined_screenshot] is the frame of lines 405-410: the monitors
    grabbed by mss, stacked by cv2.vconcat, alpha dropped. *)
Definition take_fullscreen_screenshot (env : Env) (combined_screenshot : Frame)
    : Method Frame :=
  base <- self base_image ;;
  (match base with
   | None => set_self (with_base_image (Some combined_screenshot))
   | Some _ => ret tt
   end) ;;
  to_files <- BBConfig_get write_screenshots_to_files ;;
  (if to_files then
     let timestamp := now_compact env in
     snapshot_dir <- BBConfig_get snapshot_images ;;
     os_makedirs env ;;
     let snapshot_path := os_path_join snapshot_dir ("snapshot_" +:+ timestamp +:+ ".png") in
     _ <- cv2_imwrite env snapshot_path combined_screenshot ;;
     ret tt
   else ret tt) ;;
  enabled <- BBConfig_get snapshots_database_enabled ;;
  (if enabled then _save_screenshot_diff env combined_screenshot else ret tt) ;;
  ret combined_screenshot.

Definition take_snapshot (env : Env) (combined_screenshot : Frame) : Method Frame :=
  take_fullscreen_screenshot env combined_screenshot.

(** *** The class: Desktop._instance and the objects constructed so far

    An object is known by its address, its index in [heap]. *)

Record Process : Type := mkProcess {
  world : World;
  heap : list Desktop;
  _instance : option nat }.

(** The object handed to [__init__], no attribute set yet. *)
Definition new_object : Desktop := mkDesktop "" None None false [] false.

(** The expression Desktop(): allocate, run [__init__], yield the address. *)
Definition construct (env : Env) : M Process nat :=
  fun p =>
    match __init__ env (_instance p) (new_object, world p) with
    | (Ok _, (d, w)) => (Ok (length (heap p)), mkProcess w (heap p ++ [d]) (_instance p))
    | (Raise e, (_, w)) => (Raise e, mkProcess w (heap p) (_instance p))
    end.

(** The body runs under cls._lock, so calls do not overlap. *)
Definition get_desktop_singleton (env : Env) : M Process nat :=
  inst <- gets _instance ;;
  match inst with
  | None =>
      a <- construct env ;;
      modify (fun p => mkProcess (world p) (heap p) (Some a)) ;;
      ret a
  | Some a => ret a
  end.

(** *** Two capture calls on two threads

    [_save_screenshot_diff] cut at its accesses to [self.base_image]: the
    read that feeds the diff (lines 119-126), the persistence transaction
    (lines 128-163) and the write of the new baseline (line 165).  Python
    may switch threads between any two of them; no lock is taken. *)

Inductive Pc : Type :=
  | AtDiff
  | AtPersist (region : Rect)
  | AtBaselineUpdate
  | Returned
  | Raised (e : exn).

Record Thread : Type := mkThread { t_env : Env; t_new_img : Frame; t_pc : Pc }.

Definition at_pc (t : Thread) (pc : Pc) : Thread := mkThread (t_env t) (t_new_img t) pc.

Definition persist (env : Env) (new_img : Frame) (region : Rect) : Method unit :=
  ocr_results <- ocr_extract_text env new_img ;;
  let ocr_text_json := annotation <$> ocr_results in
  user_inputs <- _save_user_input ;;
  if non_degenerate region then
    let cropped_diff := crop new_img region in
    _ <- get_thread_safe_connection env ;;
    let timestamp := now_iso env in
    execute_insert (mkRow timestamp "desktop_screenshot" cropped_diff region
                          ocr_text_json user_inputs)
  else ret tt.

Definition thread_step (t : Thread) (s : Desktop * World) : Thread * (Desktop * World) :=
  match t_pc t with
  | AtDiff =>
      match base_image (fst s) with
      | None => (at_pc t Returned, (with_base_image (Some (t_new_img t)) (fst s), snd s))
      | Some base =>
          match diff_region base (t_new_img t) with
          | Ok region => (at_pc t (AtPersist region), s)
          | Raise e => (at_pc t (Raised e), s)
          end
      end
  | AtPersist region =>
      match persist (t_env t) (t_new_img t) region s with
      | (Ok _, s') => (at_pc t AtBaselineUpdate, s')
      | (Raise e, s') => (at_pc t (Raised e), s')
      end
  | AtBaselineUpdate =>
      (at_pc t Returned, (with_base_image (Some (t_new_img t)) (fst s), snd s))
  | Returned | Raised _ => (t, s)
  end.

(** A schedule names, step by step, the thread that runs: [false] the
    first, [true] the second. *)
Fixpoint run_schedule (sched : list bool) (a b : Thread) (s : Desktop * World)
    : Thread * Thread * (Desktop * World) :=
  match sched with
  | [] => (a, b, s)
  | false :: sched' => let '(a', s') := thread_step a s in run_schedule sched' a' b s'
  | true :: sched' => let '(b', s') := thread_step b s in run_schedule sched' a b' s'
  end.

(** What a run leaves behind: the baseline and the number of records. *)
Definition outcome (s : Desktop * World) : option Frame * nat :=
  (base_image (fst s), length (snapshots (snd s))).

(** *** Histories: events produced by the collector and capture calls *)

Inductive Op : Type :=
  | Produce (e : InputEvent)
  | Capture (env : Env) (frame : Frame).

Definition run_op (s : Desktop * World) (o : Op) : Desktop * World :=
  match o with
  | Produce e => snd (Queue_put e s)
  | Capture env frame => snd (take_fullscreen_screenshot env frame s)
  end.

Definition run_ops (ops : list Op) (s : Desktop * World) : Desktop * World :=
  fold_left run_op ops s.

Fixpoint produced (ops : list Op) : list InputEvent :=
  match ops with
  | [] => []
  | Produce e :: ops' => e :: produced ops'
  | Capture _ _ :: ops' => produced ops'
  end.

(** *** Indexing and shapes *)

Definition px {A} (m : list (list A)) (i j : nat) : option A :=
  match m !! i with Some row => row !! j | None => None end.

(** A numpy array of [h] rows and [w] columns. *)
Definition rectangular {A} (h w : nat) (m : list (list A)) : Prop :=
  length m = h ∧ Forall (fun row => length row = w) m.

(** Pixel (i, j) lies in the rectangle at (x, y) of size w by h. *)
Definition inside (x y w h : nat) (i j : nat) : Prop :=
  (x ≤ j < x + w)%nat ∧ (y ≤ i < y + h)%nat.

Definition of_nats (x y w h : nat) : Rect :=
  mkRect (Z.of_nat x) (Z.of_nat y) (Z.of_nat w) (Z.of_nat h).

(** The path of the file that a capture dumps its frame to. *)
Definition snapshot_path (env : Env) (w : World) : string :=
  os_path_join (snapshot_images (config w)) ("snapshot_" +:+ now_compact env +:+ ".png").

(** The object and the world as the diff step of a capture finds them:
    lines 412-420 done, the baseline set if it was absent and the frame
    dumped to a file if so configured and cv2.imwrite managed to. *)
Definition before_diff (env : Env) (frame : Frame) (s : Desktop * World) : Desktop * World :=
  let d0 := match base_image (fst s) with
            | None => with_base_image (Some frame) (fst s)
            | Some _ => fst s
            end in
  let w0 := if write_screenshots_to_files (config (snd s)) && imwrite_ok env then
              with_files (write_file (snapshot_path env (snd s)) frame (files (snd s))) (snd s)
            else snd s in
  (d0, w0).

(** *** Sample values *)

Definition black : Pixel := BGR 0 0 0.
Definition white : Pixel := BGR 255 255 255.

Definition frame_black : Frame := [[black; black; black]; [black; black; black]].
Definition frame_patch : Frame := [[black; white; white]; [black; black; black]].

Definition key_a : InputEvent := Keyboard "'a'" "2024-12-01T10:00:00".
Definition click_1 : InputEvent := Mouse "click" (10, 20) "2024-12-01T10:00:01".

Definition no_text : Frame -> result (list OcrResult) := fun _ => Ok [].
Definition one_word : Frame -> result (list OcrResult) :=
  fun _ => Ok [mkOcrResult "File" (4, 2, 40, 16)].

Definition env_ok : Env :=
  mkEnv "Linux" "2024-12-01T10:00:02" "20241201100002" true true true one_word.
Definition env_store_down : Env :=
  mkEnv "Linux" "2024-12-01T10:00:02" "20241201100002" false true true no_text.

Definition config_on : BBConfig := mkConfig true "snapshots.db" false "snapshots" true.
Definition config_off : BBConfig := mkConfig false "" false "snapshots" false.

(** A store whose table exists and is empty, nothing else done yet. *)
Definition world_ready : World := mkWorld config_on true [] 0 0 [] [] [].
(** A process that has touched nothing, persistence and monitoring off. *)
Definition world_off : World := mkWorld config_off false [] 0 0 [] [] [].

Definition desktop_on (base : option Frame) (queue : list InputEvent) : Desktop :=
  mkDesktop "Linux" base (Some 0%nat) false queue true.

Definition fresh_process (w : World) : Process := mkProcess w [] None.

(** Two capture calls racing on the baseline [frame_black]. *)
Definition thread_a : Thread := mkThread env_ok frame_patch AtDiff.
Definition thread_b : Thread := mkThread env_ok frame_black AtDiff.
Definition serial_ab : list bool := [false; false; false; true; true; true].
Definition serial_ba : list bool := [true; true; true; false; false; false].
Definition raced : list bool := [false; true; false; false; true; true].

(** A click whose recording raises, then the release of the button. *)
Definition two_clicks : list Delivery :=
  [mkDelivery (MouseClick 10 20 "Button.left" true) "2024-12-01T10:00:01"
              (Some (BuildingData, HandlerFault));
   mkDelivery (MouseClick 10 20 "Button.left" false) "2024-12-01T10:00:02" None].

(** *** Sequences of captures *)

Fixpoint captures (l : list (Env * Frame)) : list Op :=
  match l with
  | [] => []
  | (env, frame) :: l' => Capture env frame :: captures l'
  end.

Fixpoint capture_count (ops : list Op) : nat :=
  match ops with
  | [] => O
  | Produce _ :: ops' => capture_count ops'
  | Capture _ _ :: ops' => S (capture_count ops')
  end.

(** *** What the callbacks make of a delivered event *)

(** The dict a callback builds. *)
Definition recorded (ev : Delivery) : InputEvent :=
  match os_event ev with
  | KeyPress key => Keyboard key (observed_at ev)
  | MouseClick x y _ pressed =>
      Mouse (if pressed then "click" else "release") (x, y) (observed_at ev)
  end.

Definition is_key (ev : Delivery) : bool :=
  match os_event ev with KeyPress _ => true | MouseClick _ _ _ _ => false end.

Definition no_fault (ev : Delivery) : bool :=
  match fault ev with None => true | Some _ => false end.

(** The lines a running callback logs for an event: the capture line once
    the BBLogger.log call has returned, and for a key press the error line
    of the except branch when a statement raised. *)
Definition log_lines (ev : Delivery) : list LogLine :=
  match os_event ev, fault ev with
  | KeyPress _, None => [CapturedKeyPress (recorded ev)]
  | KeyPress _, Some (Putting, e) => [CapturedKeyPress (recorded ev); ErrorInKeyPressHandler e]
  | KeyPress _, Some (_, e) => [ErrorInKeyPressHandler e]
  | MouseClick _ _ _ _, None | MouseClick _ _ _ _, Some (Putting, _) =>
      [CapturedMouseEvent (recorded ev)]
  | MouseClick _ _ _ _, Some (_, _) => []
  end.

(** The world a callback leaves when its statement [at_] raises: the
    capture line [l] is in the log once the put has been reached. *)
Definition logged_before (at_ : Stage) (l : LogLine) (w : World) : World :=
  match at_ with
  | Putting => with_log (log w ++ [l]) w
  | BuildingData | Logging => w
  end.

(** BBConfig with write_screenshots_to_files off. *)
Definition dump_off (c : BBConfig) : BBConfig :=
  mkConfig (snapshots_database_enabled c) (snapshots_database_path c)
           false (snapshot_images c) (monitor_user_input c).

(** BBConfig after BBConfig.override('monitor_user_input', True). *)
Definition monitoring_forced (c : BBConfig) : BBConfig :=
  mkConfig (snapshots_database_enabled c) (snapshots_database_path c)
           (write_screenshots_to_files c) (snapshot_images c) true.

(** ** Python strings: a str is its list of code points *)

Abbreviation pystr := (list N).

(** str.isspace on one character (CPython's _PyUnicode_IsWhitespace). *)
Definition isspace (c : N) : bool :=
  ((9 <=? c) && (c <=? 13) || (28 <=? c) && (c <=? 32) || (c =? 133) || (c =? 160)
   || (c =? 5760) || (8192 <=? c) && (c <=? 8202) || (c =? 8232) || (c =? 8233)
   || (c =? 8239) || (c =? 8287) || (c =? 12288))%N.
Arguments isspace : simpl never.

Definition newline : N := 10%N.

Fixpoint lstrip (s : pystr) : pystr :=
  match s with
  | c :: s' => if isspace c then lstrip s' else s
  | [] => []
  end.

Definition rstrip (s : pystr) : pystr := reverse (lstrip (reverse s)).

(** str.strip() *)
Definition strip (s : pystr) : pystr := rstrip (lstrip s).

(** str.split(sep) for a separator of one character. *)
Fixpoint split_on (sep : N) (s : pystr) : list pystr :=
  match s with
  | [] => [[]]
  | c :: s' =>
      if (c =? sep)%N then [] :: split_on sep s'
      else match split_on sep s' with
           | field :: fields => (c :: field) :: fields
           | [] => [[c]]
           end
  end.

(** The longest prefix without whitespace, and what follows it. *)
Fixpoint token (s : pystr) : pystr * pystr :=
  match s with
  | c :: s' => if isspace c then ([], s) else let '(t, rest) := token s' in (c :: t, rest)
  | [] => ([], [])
  end.

(** str.split(None, maxcount): at most [maxcount] splits at runs of
    whitespace; what is left after them keeps its inner and trailing
    whitespace. *)
Fixpoint split_whitespace (maxcount : nat) (s : pystr) : list pystr :=
  match maxcount with
  | O => match lstrip s with [] => [] | rest => [rest] end
  | S n =>
      match lstrip s with
      | [] => []
      | rest => let '(t, rest') := token rest in t :: split_whitespace n rest'
      end
  end.

(** str.split(): no limit on the splits; a string has no more fields than
    characters. *)
Definition split (s : pystr) : list pystr := split_whitespace (length s) s.

(** ** Window listing on Linux: get_open_windows._get_linux_windows *)

Inductive pyexc : Type :=
  | CalledProcessError
  | FileNotFoundError
  | UnicodeDecodeError
  | IndexError
  | FailSafeException
  | TesseractError.

Inductive pyresult (A : Type) : Type :=
  | Returns (a : A)
  | Raises (e : pyexc).
Arguments Returns {A} a.
Arguments Raises {A} e.

(** The dict {"id": ..., "title": ...}. *)
Record LinuxWindow : Type := mkLinuxWindow { win_id : pystr; win_title : pystr }.

(** {"id": line.split()[0], "title": line.split(None, 3)[-1]} *)
Definition window_of_line (line : pystr) : pyresult LinuxWindow :=
  match head (split line) with
  | None => Raises IndexError
  | Some id =>
      match last (split_whitespace 3 line) with
      | None => Raises IndexError
      | Some title => Returns (mkLinuxWindow id title)
      end
  end.

(** The list comprehension: the first line that raises ends it. *)
Fixpoint windows_of_lines (lines : list pystr) : pyresult (list LinuxWindow) :=
  match lines with
  | [] => Returns []
  | line :: lines' =>
      match window_of_line line with
      | Raises e => Raises e
      | Returns win =>
          match windows_of_lines lines' with
          | Raises e => Raises e
          | Returns wins => Returns (win :: wins)
          end
      end
  end.

(** [wmctrl] is what subprocess.check_output(["wmctrl", "-l"]).decode("utf-8")
    yields: the text, or the exception raised. *)
Definition _get_linux_windows (wmctrl : pyresult pystr) : pyresult (list LinuxWindow) :=
  match wmctrl with
  | Returns text => windows_of_lines (split_on newline (strip text))
  | Raises CalledProcessError => Returns []
  | Raises e => Raises e
  end.




(** A field: not empty, no whitespace in it. *)
Definition word (s : pystr) : Prop := s ≠ [] ∧ Forall (fun c => isspace c = false) s.
(** A separator: not empty, whitespace only, no line break. *)
Definition blanks (s : pystr) : Prop :=
  s ≠ [] ∧ Forall (fun c => isspace c = true ∧ c ≠ newline) s.


Definition blank_start (s : pystr) : Prop :=
  match s with [] => True | c :: _ => isspace c = true end.


(** ** Clicking a button found by OCR: click_button *)

(** pytesseract.image_to_data(..., output_type=Output.DICT): parallel lists. *)
Record OcrData : Type := mkOcrData {
  data_text : list pystr;
  data_left : list Z;
  data_top : list Z;
  data_width : list Z;
  data_height : list Z }.

Inductive UiLine : Type :=
  | Searching (button_text : pystr)
  | ClickedAt (button_text : pystr) (center_x center_y : Z)
  | NotFound (button_text : pystr)
  | ErrorFinding (button_text : pystr) (e : pyexc).

(** The pointer as pyautogui drives it, and the lines logged meanwhile. *)
Record Pointer : Type := mkPointer { clicks : list (Z * Z); ui_log : list UiLine }.

Definition ui_logged (l : UiLine) (s : Pointer) : Pointer :=
  mkPointer (clicks s) (ui_log s ++ [l]).
Definition clicked (x y : Z) (s : Pointer) : Pointer :=
  mkPointer (clicks s ++ [(x, y)]) (ui_log s).

(** What the screen answers during one call: the OCR data of the
    screenshot (or what pyautogui.screenshot or pytesseract raises) and
    whether pyautogui.click raises. *)
Record UiEnv : Type := mkUiEnv {
  screen_data : pyresult OcrData;
  click_fault : option pyexc }.

Section ClickButton.
Variable lower : pystr -> pystr.      (* str.lower *)

(** text.strip().lower() == button_text.lower() *)
Definition matches (button_text text : pystr) : bool :=
  bool_decide (lower (strip text) = lower button_text).

(** for i, text in enumerate(ocr_data['text']): ..., from index [i] on. *)
Fixpoint search (env : UiEnv) (button_text : pystr) (ocr_data : OcrData)
    (i : nat) (texts : list pystr) (s : Pointer) : pyresult bool * Pointer :=
  match texts with
  | [] => (Returns false, ui_logged (NotFound button_text) s)
  | text :: texts' =>
      if matches button_text text then
        match data_left ocr_data !! i, data_top ocr_data !! i,
              data_width ocr_data !! i, data_height ocr_data !! i with
        | Some x, Some y, Some width, Some height =>
            let center_x := x + width / 2 in
            let center_y := y + height / 2 in
            match click_fault env with
            | Some e => (Raises e, s)
            | None =>
                (Returns true,
                 ui_logged (ClickedAt button_text center_x center_y)
                           (clicked center_x center_y s))
            end
        | _, _, _, _ => (Raises IndexError, s)
        end
      else search env button_text ocr_data (S i) texts' s
  end.

(** The try block, then except Exception: log and return False. *)
Definition click_button (env : UiEnv) (button_text : pystr) (s : Pointer)
    : bool * Pointer :=
  let s1 := ui_logged (Searching button_text) s in
  let attempt :=
    match screen_data env with
    | Raises e => (Raises e, s1)
    | Returns ocr_data => search env button_text ocr_data 0 (data_text ocr_data) s1
    end in
  match attempt with
  | (Returns found, s2) => (found, s2)
  | (Raises e, s2) => (false, ui_logged (ErrorFinding button_text e) s2)
  end.

End ClickButton.

(** *** More sample values *)

Definition frame_small : Frame := [[black]].
Definition frame_blue : Frame := [[black; BGR 255 0 0; black]; [black; black; black]].

Definition ocr_down : Frame -> result (list OcrResult) := fun _ => Raise OcrError.
Definition env_ocr_down : Env :=
  mkEnv "Linux" "2024-12-01T10:00:03" "20241201100003" true true true ocr_down.
Definition env_disk_full : Env :=
  mkEnv "Linux" "2024-12-01T10:00:03" "20241201100003" true false true one_word.
(** The directory is there and cv2.imwrite cannot write into it. *)
Definition env_imwrite_fails : Env :=
  mkEnv "Linux" "2024-12-01T10:00:03" "20241201100003" true true false one_word.

Definition config_dump : BBConfig := mkConfig true "snapshots.db" true "snapshots" true.
Definition world_dump : World := mkWorld config_dump true [] 0 0 [] [] [].

Definition key_then_click : list Delivery :=
  [mkDelivery (KeyPress "'a'") "2024-12-01T10:00:00" None;
   mkDelivery (KeyPress "'b'") "2024-12-01T10:00:01" (Some (Putting, HandlerFault));
   mkDelivery (MouseClick 10 20 "Button.left" true) "2024-12-01T10:00:02" None].

(** The code points of an ASCII literal. *)
Definition codes (s : string) : pystr :=
  (fun a => Ascii.N_of_ascii a) <$> String.list_ascii_of_string s.


(** str.lower on ASCII letters, other characters left alone. *)
Definition ascii_lower (s : pystr) : pystr :=
  (fun c => if (65 <=? c)%N && (c <=? 90)%N then (c + 32)%N else c) <$> s.

Definition dialog_data : OcrData :=
  mkOcrData [codes "Cancel"; codes " OK "; codes "ok"] [10; 100; 200] [50; 50; 50]
            [41; 21; 20] [16; 17; 16].
Definition screen_ok : UiEnv := mkUiEnv (Returns dialog_data) None.
Definition screen_failsafe : UiEnv := mkUiEnv (Returns dialog_data) (Some FailSafeException).
Definition idle_pointer : Pointer := mkPointer [] [].

(** * Properties *)

(** ** The diff engine *)

Section Finders.
Variable p : nat -> bool.

Lemma find_first_Some i n a :
  find_first p i n = Some a ->
  (i ≤ a < i + n)%nat ∧ p a = true ∧ ∀ k, (i ≤ k < a)%nat -> p k = false.
Proof.
  revert i. induction n as [|n IH]; intros i; simpl; [discriminate|].
  destruct (p i) eqn:Hp.
  - intros [= <-]. repeat split; [lia | lia | done | intros; lia].
  - intros Hf. destruct (IH _ Hf) as ([? ?] & ? & Hk).
    repeat split; [lia | lia | done |].
    intros k Hk'. destruct (decide (k = i)) as [->|]; [done|]. apply Hk. lia.
Qed.

Lemma find_first_None i n k :
  find_first p i n = None -> (i ≤ k < i + n)%nat -> p k = false.
Proof.
  revert i. induction n as [|n IH]; intros i; simpl; [lia|].
  destruct (p i) eqn:Hp; [discriminate|].
  intros Hf Hk. destruct (decide (k = i)) as [->|]; [done|].
  apply (IH _ Hf). lia.
Qed.

Lemma find_last_Some n a :
  find_last p n = Some a ->
  (a < n)%nat ∧ p a = true ∧ ∀ k, (a < k < n)%nat -> p k = false.
Proof.
  induction n as [|n IH]; simpl; [discriminate|].
  destruct (p n) eqn:Hp.
  - intros [= <-]. repeat split; [lia | done | intros; lia].
  - intros Hf. destruct (IH Hf) as (? & ? & Hk).
    repeat split; [lia | done |].
    intros k Hk'. destruct (decide (k = n)) as [->|]; [done|]. apply Hk. lia.
Qed.

Lemma find_last_None n k : find_last p n = None -> (k < n)%nat -> p k = false.
Proof.
  induction n as [|n IH]; simpl; [lia|].
  destruct (p n) eqn:Hp; [discriminate|].
  intros Hf Hk. destruct (decide (k = n)) as [->|]; [done|].
  apply (IH Hf). lia.
Qed.
End Finders.

Lemma existsb_lookup {A} (f : A -> bool) (l : list A) :
  existsb f l = true ↔ ∃ i a, l !! i = Some a ∧ f a = true.
Proof.
  rewrite existsb_exists. split.
  - intros (a & Hin & Hf). apply list_elem_of_In, list_elem_of_lookup in Hin as [i Hi]. eauto.
  - intros (i & a & Hi & Hf). exists a. split; [|done].
    apply list_elem_of_In, list_elem_of_lookup. eauto.
Qed.

Lemma nonzero_true v : nonzero v = true ↔ v ≠ 0.
Proof. unfold nonzero. destruct (Z.eqb_spec v 0); simpl; split; congruence. Qed.

Lemma row_nonzero_true (m : Gray) i :
  row_nonzero m i = true ↔ ∃ j v, px m i j = Some v ∧ v ≠ 0.
Proof.
  unfold row_nonzero, px. destruct (m !! i) as [row|].
  - rewrite existsb_lookup. by setoid_rewrite nonzero_true.
  - split; [discriminate | intros (? & ? & ? & ?); discriminate].
Qed.

Lemma col_nonzero_true (m : Gray) j :
  col_nonzero m j = true ↔ ∃ i v, px m i j = Some v ∧ v ≠ 0.
Proof.
  unfold col_nonzero, px. rewrite existsb_lookup. split.
  - intros (i & row & Hi & Hv). exists i. rewrite Hi.
    destruct (row !! j) as [v|]; [|discriminate]. exists v. by rewrite <- nonzero_true.
  - intros (i & v & Hv & Hnz). destruct (m !! i) as [row|] eqn:Hi; [|discriminate].
    exists i, row. split; [done|]. rewrite Hv. by apply nonzero_true.
Qed.

Lemma px_bounds {A} (h w : nat) (m : list (list A)) i j v :
  rectangular h w m -> px m i j = Some v -> (i < h)%nat ∧ (j < w)%nat.
Proof.
  intros [Hlen Hrows] Hpx. unfold px in Hpx.
  destruct (m !! i) as [row|] eqn:Hi; [|discriminate].
  split.
  - rewrite <- Hlen. by eapply lookup_lt_Some.
  - rewrite Forall_lookup in Hrows. rewrite <- (Hrows _ _ Hi). by eapply lookup_lt_Some.
Qed.

Lemma px_defined {A} (h w : nat) (m : list (list A)) i j :
  rectangular h w m -> (i < h)%nat -> (j < w)%nat -> is_Some (px m i j).
Proof.
  intros [Hlen Hrows] Hi Hj. unfold px.
  destruct (lookup_lt_is_Some_2 m i) as [row Hrow]; [lia|]. rewrite Hrow.
  apply lookup_lt_is_Some_2. rewrite Forall_lookup in Hrows.
  by rewrite (Hrows _ _ Hrow).
Qed.

Lemma rectangular_cols {A} (h w : nat) (m : list (list A)) :
  rectangular h w m -> (0 < h)%nat -> cols m = w.
Proof.
  intros [Hlen Hrows] Hh. destruct m as [|row m]; simpl in *; [lia|].
  by inversion Hrows.
Qed.

Lemma rectangular_same_shape {A B} (h w : nat) (a : list (list A)) (b : list (list B)) :
  rectangular h w a -> rectangular h w b -> same_shape a b = true.
Proof.
  intros [Ha Hra] [Hb Hrb]. unfold same_shape, shape. apply bool_decide_eq_true.
  apply list_eq. intros i. rewrite !list_lookup_fmap.
  rewrite Forall_lookup in Hra. rewrite Forall_lookup in Hrb.
  destruct (a !! i) as [ra|] eqn:Hia, (b !! i) as [rb|] eqn:Hib; simpl.
  - by rewrite (Hra _ _ Hia), (Hrb _ _ Hib).
  - apply lookup_lt_Some in Hia. apply lookup_ge_None in Hib. lia.
  - apply lookup_lt_Some in Hib. apply lookup_ge_None in Hia. lia.
  - done.
Qed.

Lemma px_fmap {A B} (f : A -> B) (m : list (list A)) i j :
  px (fmap (M:=list) f <$> m) i j = f <$> px m i j.
Proof.
  unfold px. rewrite list_lookup_fmap. destruct (m !! i) as [row|]; simpl; [|done].
  by rewrite list_lookup_fmap.
Qed.

Lemma px_zip_with {A B C} (f : A -> B -> C) (a : list (list A)) (b : list (list B)) i j :
  px (zip_with (zip_with f) a b) i j =
  match px a i j, px b i j with Some p, Some q => Some (f p q) | _, _ => None end.
Proof.
  unfold px. rewrite lookup_zip_with.
  destruct (a !! i) as [ra|]; simpl; [|done].
  destruct (b !! i) as [rb|]; simpl.
  - rewrite lookup_zip_with. destruct (ra !! j); simpl; [|done]. by destruct (rb !! j).
  - by destruct (ra !! j).
Qed.

(** The change mask, pixel by pixel. *)
Lemma diff_mask_px base new_img mask i j :
  diff_mask base new_img = Ok mask ->
  px mask i j =
  match px base i j, px new_img i j with
  | Some p, Some q => Some (threshold_px 30 255 (gray_px (absdiff_px p q)))
  | _, _ => None
  end.
Proof.
  unfold diff_mask, absdiff. destruct (same_shape base new_img); [|discriminate].
  intros [= <-]. unfold threshold, cvtColor_BGR2GRAY.
  rewrite !px_fmap, px_zip_with.
  destruct (px base i j), (px new_img i j); done.
Qed.

Lemma diff_mask_rectangular h w base new_img mask :
  rectangular h w base -> rectangular h w new_img ->
  diff_mask base new_img = Ok mask -> rectangular h w mask.
Proof.
  intros [Ha Hra] [Hb Hrb]. unfold diff_mask, absdiff.
  destruct (same_shape base new_img); [|discriminate]. intros [= <-].
  unfold threshold, cvtColor_BGR2GRAY. split.
  - rewrite !length_fmap, length_zip_with. lia.
  - rewrite Forall_lookup. intros i row. rewrite !list_lookup_fmap, lookup_zip_with.
    rewrite Forall_lookup in Hra. rewrite Forall_lookup in Hrb.
    destruct (base !! i) as [ra|] eqn:Hia; simpl; [|discriminate].
    destruct (new_img !! i) as [rb|] eqn:Hib; simpl; [|discriminate].
    intros [= <-]. rewrite !length_fmap, length_zip_with.
    rewrite (Hra _ _ Hia), (Hrb _ _ Hib). lia.
Qed.

Lemma find_first_intro p i n a :
  p a = true -> (i ≤ a < i + n)%nat -> (∀ k, (i ≤ k < a)%nat -> p k = false) ->
  find_first p i n = Some a.
Proof.
  intros Hp Ha Hk. destruct (find_first p i n) as [a'|] eqn:Hf.
  - destruct (find_first_Some _ _ _ _ Hf) as (Hb & Hp' & Hk').
    destruct (lt_eq_lt_dec a a') as [[Hlt| ->]|Hlt]; [|done|].
    + rewrite Hk' in Hp; [discriminate | lia].
    + rewrite Hk in Hp'; [discriminate | lia].
  - rewrite (find_first_None _ _ _ a Hf) in Hp; [discriminate | lia].
Qed.

Lemma find_last_intro p n a :
  p a = true -> (a < n)%nat -> (∀ k, (a < k < n)%nat -> p k = false) ->
  find_last p n = Some a.
Proof.
  intros Hp Ha Hk. destruct (find_last p n) as [a'|] eqn:Hf.
  - destruct (find_last_Some _ _ _ Hf) as (Hb & Hp' & Hk').
    destruct (lt_eq_lt_dec a a') as [[Hlt| ->]|Hlt]; [|done|].
    + rewrite Hk in Hp'; [discriminate | lia].
    + rewrite Hk' in Hp; [discriminate | lia].
  - rewrite (find_last_None _ _ a Hf) in Hp; [discriminate | lia].
Qed.

Lemma find_first_absent p i n : (∀ k, p k = false) -> find_first p i n = None.
Proof. intros Hp. revert i. induction n as [|n IH]; intros i; simpl; [done|]. by rewrite Hp. Qed.

(** No non-zero pixel: cv2.boundingRect answers (0, 0, 0, 0). *)
Lemma boundingRect_blank (m : Gray) :
  (∀ i j v, px m i j = Some v -> v = 0) -> boundingRect m = mkRect 0 0 0 0.
Proof.
  intros Hz. unfold boundingRect. rewrite find_first_absent; [done|].
  intros k. apply not_true_iff_false. rewrite row_nonzero_true.
  intros (j & v & Hv & Hnz). by apply Hnz, (Hz k j).
Qed.

(** Every non-zero pixel lies in the rectangle. *)
Lemma boundingRect_encloses (h w : nat) (m : Gray) i j v :
  rectangular h w m -> px m i j = Some v -> v ≠ 0 ->
  rect_x (boundingRect m) ≤ Z.of_nat j < rect_x (boundingRect m) + rect_width (boundingRect m)
  ∧ rect_y (boundingRect m) ≤ Z.of_nat i
    < rect_y (boundingRect m) + rect_height (boundingRect m).
Proof.
  intros Hrect Hv Hnz. destruct (px_bounds _ _ _ _ _ _ Hrect Hv) as [Hi Hj].
  assert (Hr : row_nonzero m i = true) by (apply row_nonzero_true; eauto).
  assert (Hc : col_nonzero m j = true) by (apply col_nonzero_true; eauto).
  assert (Hcols : cols m = w) by (apply (rectangular_cols h); [done | lia]).
  destruct Hrect as [Hlen _]. unfold boundingRect. rewrite Hcols, Hlen.
  destruct (find_first (row_nonzero m) 0 h) as [y0|] eqn:Hy0;
    [|rewrite (find_first_None _ _ _ i Hy0) in Hr; [discriminate | lia]].
  destruct (find_last (row_nonzero m) h) as [y1|] eqn:Hy1;
    [|rewrite (find_last_None _ _ i Hy1) in Hr; [discriminate | lia]].
  destruct (find_first (col_nonzero m) 0 w) as [x0|] eqn:Hx0;
    [|rewrite (find_first_None _ _ _ j Hx0) in Hc; [discriminate | lia]].
  destruct (find_last (col_nonzero m) w) as [x1|] eqn:Hx1;
    [|rewrite (find_last_None _ _ j Hx1) in Hc; [discriminate | lia]].
  simpl.
  destruct (find_first_Some _ _ _ _ Hy0) as (_ & _ & Ky0).
  destruct (find_last_Some _ _ _ Hy1) as (_ & _ & Ky1).
  destruct (find_first_Some _ _ _ _ Hx0) as (_ & _ & Kx0).
  destruct (find_last_Some _ _ _ Hx1) as (_ & _ & Kx1).
  assert (y0 ≤ i)%nat.
  { destruct (le_lt_dec y0 i); [done|]. rewrite Ky0 in Hr; [discriminate | lia]. }
  assert (i ≤ y1)%nat.
  { destruct (le_lt_dec i y1); [done|]. rewrite Ky1 in Hr; [discriminate | lia]. }
  assert (x0 ≤ j)%nat.
  { destruct (le_lt_dec x0 j); [done|]. rewrite Kx0 in Hc; [discriminate | lia]. }
  assert (j ≤ x1)%nat.
  { destruct (le_lt_dec j x1); [done|]. rewrite Kx1 in Hc; [discriminate | lia]. }
  lia.
Qed.

(** The mask is non-zero exactly on a rectangle: that rectangle is returned. *)
Lemma boundingRect_exact (h w : nat) (m : Gray) (x y rw rh : nat) :
  rectangular h w m ->
  (0 < rw)%nat -> (0 < rh)%nat -> (x + rw ≤ w)%nat -> (y + rh ≤ h)%nat ->
  (∀ i j v, px m i j = Some v -> (v ≠ 0 ↔ inside x y rw rh i j)) ->
  boundingRect m = of_nats x y rw rh.
Proof.
  intros Hrect Hrw Hrh Hxw Hyh Hin.
  assert (Hrow : ∀ k, row_nonzero m k = true ↔ (y ≤ k < y + rh)%nat).
  { intros k. rewrite row_nonzero_true. split.
    - intros (j & v & Hv & Hnz). by apply (Hin _ _ _ Hv) in Hnz as [_ ?].
    - intros Hk. destruct (px_defined h w m k x Hrect) as [v Hv]; [lia | lia |].
      exists x, v. split; [done|]. apply (Hin _ _ _ Hv). unfold inside. lia. }
  assert (Hcol : ∀ k, col_nonzero m k = true ↔ (x ≤ k < x + rw)%nat).
  { intros k. rewrite col_nonzero_true. split.
    - intros (i & v & Hv & Hnz). by apply (Hin _ _ _ Hv) in Hnz as [? _].
    - intros Hk. destruct (px_defined h w m y k Hrect) as [v Hv]; [lia | lia |].
      exists y, v. split; [done|]. apply (Hin _ _ _ Hv). unfold inside. lia. }
  assert (Hcols : cols m = w) by (apply (rectangular_cols h); [done | lia]).
  destruct Hrect as [Hlen _]. unfold boundingRect. rewrite Hcols, Hlen.
  rewrite (find_first_intro _ _ _ y), (find_last_intro _ _ (y + rh - 1)),
    (find_first_intro _ _ _ x), (find_last_intro _ _ (x + rw - 1)).
  - unfold of_nats. f_equal; lia.
  - apply Hcol. lia.
  - lia.
  - intros k Hk. apply not_true_iff_false. rewrite Hcol. lia.
  - apply Hcol. lia.
  - lia.
  - intros k Hk. apply not_true_iff_false. rewrite Hcol. lia.
  - apply Hrow. lia.
  - lia.
  - intros k Hk. apply not_true_iff_false. rewrite Hrow. lia.
  - apply Hrow. lia.
  - lia.
  - intros k Hk. apply not_true_iff_false. rewrite Hrow. lia.
Qed.

Lemma threshold_px_nonzero v : threshold_px 30 255 v ≠ 0 ↔ 30 < v.
Proof. unfold threshold_px. destruct (Z.ltb_spec 30 v); split; (lia || done). Qed.

Lemma absdiff_px_same p : absdiff_px p p = BGR 0 0 0.
Proof. unfold absdiff_px. by rewrite !Z.sub_diag. Qed.

(** With a non-zero pixel present, each side of the rectangle holds one. *)
Lemma boundingRect_touches (h w : nat) (m : Gray) i j v :
  rectangular h w m -> px m i j = Some v -> v ≠ 0 ->
  (∃ i' v', px m i' (Z.to_nat (rect_x (boundingRect m))) = Some v' ∧ v' ≠ 0)
  ∧ (∃ i' v', px m i' (Z.to_nat (rect_x (boundingRect m) + rect_width (boundingRect m) - 1))
               = Some v' ∧ v' ≠ 0)
  ∧ (∃ j' v', px m (Z.to_nat (rect_y (boundingRect m))) j' = Some v' ∧ v' ≠ 0)
  ∧ (∃ j' v', px m (Z.to_nat (rect_y (boundingRect m) + rect_height (boundingRect m) - 1)) j'
               = Some v' ∧ v' ≠ 0).
Proof.
  intros Hrect Hv Hnz. destruct (px_bounds _ _ _ _ _ _ Hrect Hv) as [Hi Hj].
  assert (Hr : row_nonzero m i = true) by (apply row_nonzero_true; eauto).
  assert (Hc : col_nonzero m j = true) by (apply col_nonzero_true; eauto).
  assert (Hcols : cols m = w) by (apply (rectangular_cols h); [done | lia]).
  destruct Hrect as [Hlen _]. unfold boundingRect. rewrite Hcols, Hlen.
  destruct (find_first (row_nonzero m) 0 h) as [y0|] eqn:Hy0;
    [|rewrite (find_first_None _ _ _ i Hy0) in Hr; [discriminate | lia]].
  destruct (find_last (row_nonzero m) h) as [y1|] eqn:Hy1;
    [|rewrite (find_last_None _ _ i Hy1) in Hr; [discriminate | lia]].
  destruct (find_first (col_nonzero m) 0 w) as [x0|] eqn:Hx0;
    [|rewrite (find_first_None _ _ _ j Hx0) in Hc; [discriminate | lia]].
  destruct (find_last (col_nonzero m) w) as [x1|] eqn:Hx1;
    [|rewrite (find_last_None _ _ j Hx1) in Hc; [discriminate | lia]].
  simpl.
  replace (Z.of_nat x0 + (Z.of_nat x1 - Z.of_nat x0 + 1) - 1) with (Z.of_nat x1) by lia.
  replace (Z.of_nat y0 + (Z.of_nat y1 - Z.of_nat y0 + 1) - 1) with (Z.of_nat y1) by lia.
  rewrite !Nat2Z.id.
  destruct (find_first_Some _ _ _ _ Hy0) as (_ & Py0 & _).
  destruct (find_last_Some _ _ _ Hy1) as (_ & Py1 & _).
  destruct (find_first_Some _ _ _ _ Hx0) as (_ & Px0 & _).
  destruct (find_last_Some _ _ _ Hx1) as (_ & Px1 & _).
  repeat split.
  - by apply col_nonzero_true.
  - by apply col_nonzero_true.
  - by apply row_nonzero_true.
  - by apply row_nonzero_true.
Qed.

(** Channel differences above the threshold give an intensity above it. *)
Lemma gray_px_above p :
  30 < blue p -> 30 < green p -> 30 < red p -> 30 < gray_px p.
Proof.
  intros Hb Hg Hr. unfold gray_px. rewrite Z.shiftr_div_pow2 by lia.
  change (Z.shiftl 1 14) with 16384. change (2 ^ 15) with 32768.
  apply Z.lt_le_trans with (m := (31 * 32768) / 32768).
  - rewrite Z.div_mul by lia. lia.
  - apply Z.div_le_mono; lia.
Qed.

(** The intensity that cvtColor gives the absolute difference of two
    pixels, written on the channel values. *)
Lemma gray_absdiff_channels p q :
  gray_px (absdiff_px p q)
  = (Z.abs (blue p - blue q) * 3735 + Z.abs (green p - green q) * 19235
     + Z.abs (red p - red q) * 9798 + 16384) / 32768.
Proof. unfold gray_px, absdiff_px. simpl. rewrite Z.shiftr_div_pow2 by lia. reflexivity. Qed.

Lemma absdiff_px_sym p q : absdiff_px p q = absdiff_px q p.
Proof. unfold absdiff_px. f_equal; lia. Qed.

Lemma zip_with_sym {A B} (f : A -> A -> B) (l k : list A) :
  (∀ x y, f x y = f y x) -> zip_with f l k = zip_with f k l.
Proof.
  intros Hf. revert k. induction l as [|x l IH]; intros [|y k]; simpl; [done..|].
  by rewrite Hf, IH.
Qed.

(** The diff does not depend on which frame is the older one. *)
Lemma diff_mask_sym a b : diff_mask a b = diff_mask b a.
Proof.
  unfold diff_mask, absdiff, same_shape.
  rewrite (bool_decide_ext (shape a = shape b) (shape b = shape a)) by done.
  destruct (bool_decide (shape b = shape a)); [|done].
  do 3 f_equal. apply zip_with_sym. intros x y. apply zip_with_sym, absdiff_px_sym.
Qed.

(** C4. For a baseline and a new frame of equal dimensions (at least one
    pixel each way) the diff engine yields a mask of those dimensions, the
    same whichever of the two frames is the older, that is 255 where the
    intensity of the per-pixel absolute difference exceeds 30 and 0
    elsewhere; the intensity of a difference is
    (3735 |dB| + 19235 |dG| + 9798 |dR| + 2^14) / 2^15 on the channel
    values.  The region returned is the bounding rectangle of the non-zero
    mask pixels: it encloses them all and each of its sides holds one.
    Identical frames give the degenerate region (0, 0, 0, 0); frames whose
    difference is above the threshold everywhere in a rectangle R and at
    or below it (in particular absent) everywhere else give R. *)
Theorem diff_engine_bounding_rect (h w : nat) (base new_img : Frame) :
  (0 < h)%nat -> (0 < w)%nat ->
  rectangular h w base -> rectangular h w new_img ->
  ∃ mask,
    diff_mask base new_img = Ok mask
    ∧ diff_mask new_img base = Ok mask
    ∧ diff_region base new_img = Ok (boundingRect mask)
    ∧ rectangular h w mask
    ∧ (∀ i j p q, px base i j = Some p -> px new_img i j = Some q ->
         px mask i j
         = Some (if 30 <? (Z.abs (blue p - blue q) * 3735 + Z.abs (green p - green q) * 19235
                           + Z.abs (red p - red q) * 9798 + 16384) / 32768
                 then 255 else 0))
    ∧ (∀ i j v, px mask i j = Some v -> v ≠ 0 ->
         (rect_x (boundingRect mask) ≤ Z.of_nat j
            < rect_x (boundingRect mask) + rect_width (boundingRect mask)
          ∧ rect_y (boundingRect mask) ≤ Z.of_nat i
            < rect_y (boundingRect mask) + rect_height (boundingRect mask))
         ∧ (∃ i' v', px mask i' (Z.to_nat (rect_x (boundingRect mask))) = Some v' ∧ v' ≠ 0)
         ∧ (∃ i' v', px mask i' (Z.to_nat (rect_x (boundingRect mask)
                                            + rect_width (boundingRect mask) - 1)) = Some v'
                     ∧ v' ≠ 0)
         ∧ (∃ j' v', px mask (Z.to_nat (rect_y (boundingRect mask))) j' = Some v' ∧ v' ≠ 0)
         ∧ (∃ j' v', px mask (Z.to_nat (rect_y (boundingRect mask)
                                         + rect_height (boundingRect mask) - 1)) j' = Some v'
                     ∧ v' ≠ 0))
    ∧ (base = new_img ->
         boundingRect mask = mkRect 0 0 0 0 ∧ non_degenerate (boundingRect mask) = false)
    ∧ (∀ x y rw rh : nat,
         (0 < rw)%nat -> (0 < rh)%nat -> (x + rw ≤ w)%nat -> (y + rh ≤ h)%nat ->
         (∀ i j p q, px base i j = Some p -> px new_img i j = Some q ->
            (inside x y rw rh i j ->
             30 < (Z.abs (blue p - blue q) * 3735 + Z.abs (green p - green q) * 19235
                   + Z.abs (red p - red q) * 9798 + 16384) / 32768)
            ∧ (¬ inside x y rw rh i j ->
               (Z.abs (blue p - blue q) * 3735 + Z.abs (green p - green q) * 19235
                + Z.abs (red p - red q) * 9798 + 16384) / 32768 ≤ 30)) ->
         boundingRect mask = of_nats x y rw rh).
Proof.
  intros _ _ Hb Hn.
  destruct (diff_mask base new_img) as [mask|e] eqn:Hmask.
  2:{ unfold diff_mask, absdiff in Hmask.
      by rewrite (rectangular_same_shape h w base new_img Hb Hn) in Hmask. }
  assert (Hm : rectangular h w mask) by eauto using diff_mask_rectangular.
  exists mask. split; [done|]. split; [by rewrite diff_mask_sym|].
  split; [unfold diff_region; by rewrite Hmask|]. split; [done|].
  split; [|split; [|split]].
  - intros i j p q Hp Hq.
    rewrite (diff_mask_px _ _ _ i j Hmask), Hp, Hq, gray_absdiff_channels. done.
  - intros i j v Hv Hnz. split.
    + by apply (boundingRect_encloses h w mask i j v).
    + by apply (boundingRect_touches h w mask i j v).
  - intros <-. assert (Hz : boundingRect mask = mkRect 0 0 0 0).
    { apply boundingRect_blank. intros i j v. rewrite (diff_mask_px _ _ _ i j Hmask).
      destruct (px base i j) as [p|]; [|discriminate]. rewrite absdiff_px_same.
      by intros [= <-]. }
    by rewrite Hz.
  - intros x y rw rh Hrw Hrh Hxw Hyh Hin. apply (boundingRect_exact h w); try done.
    intros i j v. rewrite (diff_mask_px _ _ _ i j Hmask).
    destruct (px base i j) as [p|] eqn:Hp; [|discriminate].
    destruct (px new_img i j) as [q|] eqn:Hq; [|discriminate].
    intros [= <-]. rewrite threshold_px_nonzero, gray_absdiff_channels.
    destruct (Hin i j p q Hp Hq) as [Hi Ho]. split; [|done].
    intros Hgt. destruct (decide (inside x y rw rh i j)) as [|Hout]; [done|].
    specialize (Ho Hout). lia.
Qed.

(** A patch that turns from white to black is found like one that turns
    from black to white. *)
Lemma diff_engine_bounding_rect_witness :
  rectangular 2 3 frame_patch ∧ rectangular 2 3 frame_black
  ∧ diff_region frame_patch frame_black = Ok (of_nats 1 0 2 1).
Proof.
  assert (Hb : rectangular 2 3 frame_black) by (split; [reflexivity | repeat constructor]).
  assert (Hp : rectangular 2 3 frame_patch) by (split; [reflexivity | repeat constructor]).
  split; [exact Hp|]. split; [exact Hb|].
  destruct (diff_engine_bounding_rect 2 3 frame_patch frame_black) as
    (mask & _ & _ & Hr & _ & _ & _ & _ & HR); [lia | lia | exact Hp | exact Hb |].
  rewrite Hr. f_equal. apply HR; [lia | lia | lia | lia |].
  intros i j p q.
  destruct i as [|[|i]]; destruct j as [|[|[|j]]]; simpl;
    try discriminate; intros [= <-] [= <-]; unfold inside;
    (split; [intros Hin; (reflexivity || lia)
            | intros Hn; ((vm_compute; discriminate) || (exfalso; apply Hn; lia))]).
Defined.

Lemma diff_region_same f : diff_region f f = Ok (mkRect 0 0 0 0).
Proof.
  destruct (diff_mask f f) as [mask|e] eqn:Hm.
  - unfold diff_region. rewrite Hm. f_equal. apply boundingRect_blank.
    intros i j v. rewrite (diff_mask_px _ _ _ i j Hm).
    destruct (px f i j) as [p|]; [|discriminate]. rewrite absdiff_px_same. by intros [= <-].
  - unfold diff_mask, absdiff, same_shape in Hm. rewrite bool_decide_eq_true_2 in Hm; done.
Qed.

Lemma non_degenerate_true r :
  non_degenerate r = true ↔ 0 < rect_width r ∧ 0 < rect_height r.
Proof. unfold non_degenerate. rewrite andb_true_iff, !Z.ltb_lt. done. Qed.

(** ** The capture path, statement by statement *)

Lemma drain_spec q acc : drain q acc = (acc ++ q, []).
Proof.
  revert acc. induction q as [|e q IH]; intros acc; simpl.
  - by rewrite app_nil_r.
  - rewrite IH. by rewrite <- app_assoc.
Qed.

Lemma _save_user_input_run d w :
  _save_user_input (d, w) = (Ok (user_input_queue d), (with_queue [] d, w)).
Proof.
  unfold _save_user_input, bind, self, gets. simpl. rewrite drain_spec. reflexivity.
Qed.

Lemma persist_run env new_img region d w :
  persist env new_img region (d, w) =
  let w1 := with_ocr_calls (ocr_calls w ++ [new_img]) w in
  match extract_text env new_img with
  | Raise e => (Raise e, (d, w1))
  | Ok ocr_results =>
      let d1 := with_queue [] d in
      if non_degenerate region then
        if db_openable env then
          let w2 := with_connections (S (connections_opened w)) w1 in
          if has_snapshots_table w then
            (Ok tt, (d1, with_snapshots
                           (snapshots w ++ [mkRow (now_iso env) "desktop_screenshot"
                                                  (crop new_img region) region
                                                  (annotation <$> ocr_results)
                                                  (user_input_queue d)]) w2))
          else (Raise OperationalError, (d1, w2))
        else (Raise OperationalError, (d1, w1))
      else (Ok tt, (d1, w1))
  end.
Proof.
  unfold persist, ocr_extract_text, bind, lift, set_outside, modify. simpl.
  destruct (extract_text env new_img) as [ocr|e]; [|done].
  rewrite _save_user_input_run.
  destruct (non_degenerate region); [|done].
  unfold get_thread_safe_connection, sqlite3_connect.
  destruct (db_openable env); [|done].
  unfold execute_insert, bind, outside, gets, set_outside, modify, ret. simpl.
  destruct (has_snapshots_table w); done.
Qed.

Lemma _save_screenshot_diff_run env new_img d w :
  _save_screenshot_diff env new_img (d, w) =
  match base_image d with
  | None => (Ok tt, (with_base_image (Some new_img) d, w))
  | Some base =>
      match diff_region base new_img with
      | Raise e => (Raise e, (d, w))
      | Ok region =>
          match persist env new_img region (d, w) with
          | (Ok _, (d', w')) => (Ok tt, (with_base_image (Some new_img) d', w'))
          | (Raise e, s') => (Raise e, s')
          end
      end
  end.
Proof.
  unfold _save_screenshot_diff, bind, self, gets, lift. simpl.
  destruct (base_image d) as [base|]; [|done].
  destruct (diff_region base new_img) as [region|e]; [|done].
  rewrite persist_run.
  unfold ocr_extract_text, bind, set_outside, modify, lift. simpl.
  destruct (extract_text env new_img) as [ocr|e]; [|done].
  rewrite _save_user_input_run.
  destruct (non_degenerate region); [|done].
  unfold get_thread_safe_connection, sqlite3_connect.
  destruct (db_openable env); [|done].
  unfold execute_insert, bind, outside, gets, set_outside, modify, ret. simpl.
  destruct (has_snapshots_table w); done.
Qed.

Lemma take_fullscreen_screenshot_run env frame d w :
  take_fullscreen_screenshot env frame (d, w) =
  if write_screenshots_to_files (config w) && negb (fs_writable env) then
    (Raise OSError,
     (match base_image d with None => with_base_image (Some frame) d | Some _ => d end, w))
  else if snapshots_database_enabled (config w) then
    match _save_screenshot_diff env frame (before_diff env frame (d, w)) with
    | (Ok _, s') => (Ok frame, s')
    | (Raise e, s') => (Raise e, s')
    end
  else (Ok frame, before_diff env frame (d, w)).
Proof.
  unfold take_fullscreen_screenshot, before_diff, snapshot_path, bind, self, gets,
    BBConfig_get, outside, gets, os_makedirs, cv2_imwrite, bind, set_self, set_outside,
    modify, ret, raise. simpl.
  destruct (base_image d) as [base|]; simpl;
    destruct (write_screenshots_to_files (config w)); simpl;
    destruct (fs_writable env); simpl; try done;
    destruct (imwrite_ok env); simpl; try done;
    destruct (snapshots_database_enabled (config w)); simpl; try done;
    match goal with |- context [_save_screenshot_diff ?e ?f ?s] =>
      destruct (_save_screenshot_diff e f s) as [[[]|?] ?] end; done.
Qed.

Lemma app_one_neq {A} (l : list A) a : l ≠ l ++ [a].
Proof. intros H. apply (f_equal length) in H. rewrite length_app in H. simpl in H. lia. Qed.

Ltac nd_facts :=
  repeat match goal with
  | H : non_degenerate _ = true |- _ => apply non_degenerate_true in H
  | H : non_degenerate ?r = false |- _ =>
      assert (¬ (0 < rect_width r ∧ 0 < rect_height r))
        by (rewrite <- non_degenerate_true; congruence);
      clear H
  end.

Ltac same_region :=
  repeat match goal with
  | H1 : diff_region ?b ?f = Ok ?x, H2 : diff_region ?b ?f = Ok ?y |- _ =>
      assert (x = y) by congruence; subst; clear H2
  | H1 : diff_region ?b ?f = Raise _, H2 : diff_region ?b ?f = Ok _ |- _ => congruence
  end.

(** Every path of one capture call, one goal each. *)
Ltac split_cycle H :=
  rewrite take_fullscreen_screenshot_run in H;
  rewrite ?_save_screenshot_diff_run in H;
  unfold before_diff in H; simpl in H;
  repeat
    (match type of H with
     | context [match base_image ?d with _ => _ end] => destruct (base_image d) eqn:?
     | context [if ?c then _ else _] => destruct c eqn:?
     | context [match diff_region ?a ?b with _ => _ end] => destruct (diff_region a b) eqn:?
     | context [match extract_text ?a ?b with _ => _ end] => destruct (extract_text a b) eqn:?
     | context [persist _ _ _ _] => rewrite persist_run in H
     | context [_save_screenshot_diff _ _ _] => rewrite _save_screenshot_diff_run in H
     end; simpl in H).

Ltac file_dump_ok Hfs :=
  try match goal with
      | H : _ && negb _ = true |- _ =>
          apply andb_true_iff in H as [? Hneg]; rewrite Hfs in Hneg by done; discriminate
      end.

(** ** Persistence failures *)

(** C1, as stated, fails.  With the store unopenable, a capture of
    [frame_patch] over the baseline [frame_black] raises the store's error
    out of the call: the caller gets no frame, the baseline is still
    [frame_black], and nothing has been logged. *)
Lemma store_failure_escapes :
  fst (take_fullscreen_screenshot env_store_down frame_patch
         (desktop_on (Some frame_black) [key_a], world_ready)) = Raise OperationalError
  ∧ base_image (fst (snd (take_fullscreen_screenshot env_store_down frame_patch
         (desktop_on (Some frame_black) [key_a], world_ready)))) = Some frame_black
  ∧ frame_black ≠ frame_patch
  ∧ log (snd (snd (take_fullscreen_screenshot env_store_down frame_patch
         (desktop_on (Some frame_black) [key_a], world_ready)))) = [].
Proof. vm_compute. repeat split; done. Qed.

(** C1, amended.  When a capture cycle reaches the store write (persistence
    enabled, a baseline present, a non-degenerate region, OCR returned) and
    the store cannot be opened or has no table, the store's error leaves the
    capture call: no frame is returned, nothing is logged, no record is
    written, the baseline keeps the previous frame, and the queue has been
    drained. *)
Theorem store_failure_propagates env frame d w base region ocr_results :
  snapshots_database_enabled (config w) = true ->
  (write_screenshots_to_files (config w) = true -> fs_writable env = true) ->
  base_image d = Some base ->
  diff_region base frame = Ok region ->
  0 < rect_width region ∧ 0 < rect_height region ->
  extract_text env frame = Ok ocr_results ->
  db_openable env = false ∨ has_snapshots_table w = false ->
  ∃ d' w',
    take_fullscreen_screenshot env frame (d, w) = (Raise OperationalError, (d', w'))
    ∧ base_image d' = Some base
    ∧ snapshots w' = snapshots w
    ∧ log w' = log w
    ∧ user_input_queue d' = [].
Proof.
  intros Hen Hfs Hbase Hdiff Hnd Hocr Hfail.
  apply non_degenerate_true in Hnd.
  destruct (take_fullscreen_screenshot env frame (d, w)) as [r [d' w']] eqn:Hrun.
  exists d', w'. split_cycle Hrun.
  all: simplify_eq; simpl in *; file_dump_ok Hfs.
  all: try (destruct Hfail; congruence).
  all: try done.
Qed.

Lemma store_failure_propagates_witness :
  db_openable env_store_down = false
  ∧ ∃ d' w',
      take_fullscreen_screenshot env_store_down frame_patch
        (desktop_on (Some frame_black) [key_a], world_ready)
        = (Raise OperationalError, (d', w'))
      ∧ base_image d' = Some frame_black
      ∧ snapshots w' = snapshots world_ready
      ∧ log w' = log world_ready
      ∧ user_input_queue d' = [].
Proof.
  split; [reflexivity|].
  apply (store_failure_propagates env_store_down frame_patch
           (desktop_on (Some frame_black) [key_a]) world_ready
           frame_black (of_nats 1 0 2 1) []).
  - reflexivity.
  - intros _. reflexivity.
  - reflexivity.
  - vm_compute. reflexivity.
  - split; reflexivity.
  - reflexivity.
  - left. reflexivity.
Defined.

(** ** The queue drain *)

Lemma run_ops_produce evs d w :
  run_ops (Produce <$> evs) (d, w) = (with_queue (user_input_queue d ++ evs) d, w).
Proof.
  revert d. induction evs as [|e evs IH]; intros d; simpl.
  - rewrite app_nil_r. by destruct d.
  - unfold run_ops in *. simpl. unfold Queue_put, set_self, modify. simpl.
    rewrite IH. simpl. by rewrite <- app_assoc.
Qed.

(** C2, as stated, fails.  Two events are queued and a capture finds the
    frame unchanged: the region is degenerate, yet the drain has run, the
    queue is empty, and no record holds the two events. *)
Lemma degenerate_cycle_drains :
  take_fullscreen_screenshot env_ok frame_black
    (desktop_on (Some frame_black) [key_a; click_1], world_ready)
  = (Ok frame_black,
     (desktop_on (Some frame_black) [],
      with_ocr_calls [frame_black] world_ready))
  ∧ diff_region frame_black frame_black = Ok (mkRect 0 0 0 0)
  ∧ snapshots (with_ocr_calls [frame_black] world_ready) = [].
Proof. vm_compute. done. Qed.

(** C2, amended.  With persistence enabled, every capture call that
    returns leaves the queue empty, whatever the region.  When events [evs]
    are produced and one capture cycle with a non-degenerate region then
    runs, its record's user_input is the queue as it stood followed by
    [evs], in production order: exactly [evs] when the queue was empty
    before. *)
Theorem drained_events_persisted env frame d w evs out d' w' :
  snapshots_database_enabled (config w) = true ->
  take_fullscreen_screenshot env frame (run_ops (Produce <$> evs) (d, w))
    = (Ok out, (d', w')) ->
  user_input_queue d' = []
  ∧ ∀ base region,
      base_image d = Some base -> diff_region base frame = Ok region ->
      0 < rect_width region ∧ 0 < rect_height region ->
      ∃ row, snapshots w' = snapshots w ++ [row]
             ∧ row_user_input row = user_input_queue d ++ evs
             ∧ (user_input_queue d = [] -> row_user_input row = evs).
Proof.
  intros Hen Hrun. rewrite run_ops_produce in Hrun. split_cycle Hrun.
  all: simplify_eq; simpl in *; nd_facts.
  all: split; [reflexivity|].
  all: intros base region Hbase Hdiff Hnd; simplify_eq; same_region; try done.
  all: eexists; split; [reflexivity|]; simpl; split; [reflexivity|].
  all: by intros ->.
Qed.

Lemma drained_events_persisted_witness :
  let run := take_fullscreen_screenshot env_ok frame_patch
               (run_ops (Produce <$> [key_a; click_1])
                        (desktop_on (Some frame_black) [], world_ready)) in
  snapshots_database_enabled (config world_ready) = true
  ∧ user_input_queue (fst (snd run)) = []
  ∧ ∃ row, snapshots (snd (snd run)) = snapshots world_ready ++ [row]
           ∧ row_user_input row = [key_a; click_1].
Proof.
  intros run. split; [reflexivity|].
  destruct (drained_events_persisted env_ok frame_patch
              (desktop_on (Some frame_black) []) world_ready [key_a; click_1]
              frame_patch (fst (snd run)) (snd (snd run)))
    as [Hq Hrow]; [reflexivity | vm_compute; reflexivity |].
  split; [exact Hq|].
  destruct (Hrow frame_black (of_nats 1 0 2 1)) as (row & Hs & _ & He);
    [reflexivity | vm_compute; reflexivity | split; reflexivity |].
  exists row. split; [exact Hs | apply He; reflexivity].
Defined.

(** ** Records and regions *)

(** C3, as stated, fails.  With persistence enabled and the store
    unopenable, a capture of [frame_patch] over the baseline [frame_black]
    finds the region (1, 0, 2, 1), of positive width and height, and
    inserts no record: the cycle raises at the store write.  The same
    happens when the OCR engine raises. *)
Lemma non_degenerate_region_without_record :
  snapshots_database_enabled (config world_ready) = true
  ∧ diff_region frame_black frame_patch = Ok (of_nats 1 0 2 1)
  ∧ non_degenerate (of_nats 1 0 2 1) = true
  ∧ fst (take_fullscreen_screenshot env_store_down frame_patch
           (desktop_on (Some frame_black) [key_a], world_ready)) = Raise OperationalError
  ∧ snapshots (snd (snd (take_fullscreen_screenshot env_store_down frame_patch
           (desktop_on (Some frame_black) [key_a], world_ready)))) = snapshots world_ready
  ∧ fst (take_fullscreen_screenshot env_ocr_down frame_patch
           (desktop_on (Some frame_black) [key_a], world_ready)) = Raise OcrError
  ∧ snapshots (snd (snd (take_fullscreen_screenshot env_ocr_down frame_patch
           (desktop_on (Some frame_black) [key_a], world_ready)))) = snapshots world_ready.
Proof. vm_compute. repeat split; done. Qed.

(** C3, amended.  With persistence enabled, a capture call that returns
    has inserted a record if and only if its region (the diff of the frame
    against the baseline the diff step sees: the previous one, or the frame
    itself on a first capture) has positive width and height; whatever the
    outcome of the call, at most one record is inserted and only for such a
    region.  A first capture, on a baseline that is absent, inserts no
    record and leaves the captured frame as baseline.  A call that raises
    inserts no record, whatever its region. *)
Theorem snapshot_iff_non_degenerate env frame d w r d' w' :
  snapshots_database_enabled (config w) = true ->
  take_fullscreen_screenshot env frame (d, w) = (r, (d', w')) ->
  (∀ out, r = Ok out ->
     ∃ region, diff_region (default frame (base_image d)) frame = Ok region
       ∧ ((∃ row, snapshots w' = snapshots w ++ [row])
          ↔ 0 < rect_width region ∧ 0 < rect_height region))
  ∧ (snapshots w' = snapshots w
     ∨ ∃ row, snapshots w' = snapshots w ++ [row]
         ∧ diff_region (default frame (base_image d)) frame = Ok (row_position row)
         ∧ 0 < rect_width (row_position row) ∧ 0 < rect_height (row_position row))
  ∧ (base_image d = None -> snapshots w' = snapshots w ∧ base_image d' = Some frame)
  ∧ (∀ e, r = Raise e -> snapshots w' = snapshots w).
Proof.
  intros Hen Hrun. split_cycle Hrun.
  all: rewrite ?diff_region_same in *; simplify_eq; simpl in *; nd_facts.
  all: split; [intros out Hout; try discriminate|split; [|split]].
  all: try (intros e He; try discriminate; reflexivity).
  all: try (intros Hnone; try discriminate; split; reflexivity).
  all: try (eexists; split; [eassumption || reflexivity|]; simpl; split;
            [intros [row Hrow]; try done; by destruct (app_one_neq _ _ Hrow)
            |intros Hnd; try done; eauto]).
  all: try (left; reflexivity).
  all: try (right; eexists; split; [reflexivity|]; simpl; done).
Qed.

Lemma snapshot_iff_non_degenerate_witness :
  let run := take_fullscreen_screenshot env_ok frame_patch
               (desktop_on (Some frame_black) [key_a], world_ready) in
  snapshots_database_enabled (config world_ready) = true
  ∧ ∃ row, snapshots (snd (snd run)) = snapshots world_ready ++ [row].
Proof.
  intros run. split; [reflexivity|].
  destruct (snapshot_iff_non_degenerate env_ok frame_patch
              (desktop_on (Some frame_black) [key_a]) world_ready
              (fst run) (fst (snd run)) (snd (snd run)))
    as (Hiff & _ & _); [reflexivity | reflexivity |].
  destruct (Hiff frame_patch) as (region & Hregion & Hrow); [reflexivity|].
  apply Hrow. vm_compute in Hregion. injection Hregion as <-. split; reflexivity.
Defined.

(** ** Text annotations *)

(** C8. In a capture cycle that inserts a record, [extract_text] is called
    once, on the full new frame, and the record's annotations are its
    results mapped one by one: corners (left, top, right, bottom) become
    the rect {x = left, y = top, width = right - left,
    height = bottom - top}, in frame coordinates. *)
Theorem ocr_on_full_frame env frame d w r d' w' row :
  snapshots_database_enabled (config w) = true ->
  take_fullscreen_screenshot env frame (d, w) = (r, (d', w')) ->
  snapshots w' = snapshots w ++ [row] ->
  ∃ ocr_results,
    extract_text env frame = Ok ocr_results
    ∧ ocr_calls w' = ocr_calls w ++ [frame]
    ∧ row_text row = annotation <$> ocr_results
    ∧ ∀ t left top right bottom,
        annotation (mkOcrResult t (left, top, right, bottom))
        = mkAnnotation t (mkRect left top (right - left) (bottom - top)).
Proof.
  intros Hen Hrun Hrow. split_cycle Hrun.
  all: simplify_eq; simpl in *.
  all: try by destruct (app_one_neq _ _ Hrow).
  all: apply app_inj_tail in Hrow as [_ <-]; eexists; split; [reflexivity|]; done.
Qed.

Lemma ocr_on_full_frame_witness :
  let run := take_fullscreen_screenshot env_ok frame_patch
               (desktop_on (Some frame_black) [key_a], world_ready) in
  ocr_calls (snd (snd run)) = [frame_patch]
  ∧ row_text <$> snapshots (snd (snd run))
    = [[mkAnnotation "File" (mkRect 4 2 36 14)]].
Proof.
  intros run.
  destruct (ocr_on_full_frame env_ok frame_patch
              (desktop_on (Some frame_black) [key_a]) world_ready
              (fst run) (fst (snd run)) (snd (snd run))
              (mkRow "2024-12-01T10:00:02" "desktop_screenshot" [[white; white]]
                     (of_nats 1 0 2 1) [mkAnnotation "File" (mkRect 4 2 36 14)] [key_a]))
    as (ocr_results & Hocr & Hcalls & Htext & _);
    [reflexivity | reflexivity | vm_compute; reflexivity |].
  split; [exact Hcalls | vm_compute; reflexivity].
Defined.

(** ** Events drained without a record *)

Lemma capture_step env frame s :
  let s' := snd (take_fullscreen_screenshot env frame s) in
  (snapshots (snd s') = snapshots (snd s)
   ∧ (user_input_queue (fst s') = user_input_queue (fst s) ∨ user_input_queue (fst s') = []))
  ∨ (∃ row, snapshots (snd s') = snapshots (snd s) ++ [row]
       ∧ row_user_input row = user_input_queue (fst s)
       ∧ user_input_queue (fst s') = []).
Proof.
  destruct s as [d w]. simpl.
  destruct (take_fullscreen_screenshot env frame (d, w)) as [r [d' w']] eqn:Hrun.
  split_cycle Hrun.
  all: simplify_eq; simpl.
  all: try (left; split; [reflexivity | (left; reflexivity) || (right; reflexivity)]).
  all: right; eexists; split; [reflexivity|]; simpl; done.
Qed.





(** ** The singleton *)

Lemma __init___run env w :
  db_openable env = true ->
  ∃ d' w',
    __init__ env None (new_object, w) = (Ok tt, (d', w'))
    ∧ base_image d' = None
    ∧ user_input_queue d' = []
    ∧ monitoring_user_input d' = true
    ∧ collector_threads w' = S (collector_threads w)
    ∧ connections_opened w'
      = (connections_opened w + if snapshots_database_enabled (config w) then 2 else 1)%nat
    ∧ has_snapshots_table w' = snapshots_database_enabled (config w) || has_snapshots_table w
    ∧ snapshots w' = snapshots w.
Proof.
  intros Hdb.
  unfold __init__, init_database, sqlite3_connect, bind, BBConfig_get, outside, gets,
    set_self, set_outside, modify, ret, execute_create_table,
    BBConfig_override_monitor_user_input, start_collector_thread.
  rewrite Hdb. simpl.
  destruct (snapshots_database_enabled (config w)); simpl;
    eexists _, _; (split; [reflexivity|]); simpl; repeat split; lia.
Qed.

(** C5, as stated, fails.  In a process where the accessor has not run
    yet, Desktop() called directly raises nothing: it yields an object, and
    a second direct call yields another. *)
Lemma direct_construction_succeeds :
  fst (construct env_ok (fresh_process world_ready)) = Ok 0%nat
  ∧ fst (construct env_ok (snd (construct env_ok (fresh_process world_ready)))) = Ok 1%nat.
Proof. vm_compute. done. Qed.

Lemma construct_guard env p a :
  _instance p = Some a -> construct env p = (Raise RuntimeError, p).
Proof.
  intros H. unfold construct, __init__. rewrite H. simpl.
  destruct p. simpl in *. by subst.
Qed.

(** C5, amended.  Once [get_desktop_singleton] has returned an instance,
    every further call returns that same instance and changes nothing (no
    second construction), the first call having constructed one object if
    none was registered and none otherwise; and from then on a direct
    construction raises RuntimeError.  Before the accessor has registered
    an instance, direct construction is not refused: where the store can
    be opened it yields a new object and registers nothing. *)
Theorem singleton_accessor env p a p' :
  get_desktop_singleton env p = (Ok a, p') ->
  _instance p' = Some a
  ∧ (∀ env2, get_desktop_singleton env2 p' = (Ok a, p'))
  ∧ (∀ env2, construct env2 p' = (Raise RuntimeError, p'))
  ∧ length (heap p')
    = (length (heap p) + match _instance p with Some _ => 0 | None => 1 end)%nat
  ∧ (∀ env2 w objects,
       db_openable env2 = true ->
       ∃ d2 w2, construct env2 (mkProcess w objects None)
                = (Ok (length objects), mkProcess w2 (objects ++ [d2]) None)).
Proof.
  intros Hget.
  assert (Hdirect : ∀ env2 w objects,
            db_openable env2 = true ->
            ∃ d2 w2, construct env2 (mkProcess w objects None)
                     = (Ok (length objects), mkProcess w2 (objects ++ [d2]) None)).
  { intros env2 w objects Hdb.
    destruct (__init___run env2 w Hdb) as (d2 & w2 & Hinit & _).
    exists d2, w2. unfold construct. cbn [_instance world heap]. by rewrite Hinit. }
  assert (Hinst : _instance p' = Some a
                  ∧ length (heap p')
                    = (length (heap p) + match _instance p with Some _ => 0 | None => 1 end)%nat).
  { unfold get_desktop_singleton, bind, gets, modify, ret in Hget. simpl in Hget.
    destruct (_instance p) as [a0|] eqn:Hi.
    - simplify_eq. split; [done | lia].
    - unfold construct in Hget. rewrite Hi in Hget.
      destruct (__init__ env None (new_object, world p)) as [[[]|e] [d w]];
        simplify_eq; simpl. split; [done|]. rewrite length_app. simpl. lia. }
  destruct Hinst as [Hinst Hlen]. split; [done|]. split; [|split; [|done]].
  - intros env2. unfold get_desktop_singleton, bind, gets. simpl. by rewrite Hinst.
  - intros env2. by apply (construct_guard env2 p' a).
Qed.

Lemma singleton_accessor_witness :
  let p' := snd (get_desktop_singleton env_ok (fresh_process world_ready)) in
  get_desktop_singleton env_store_down p' = (Ok 0%nat, p')
  ∧ construct env_ok p' = (Raise RuntimeError, p')
  ∧ length (heap p') = 1%nat.
Proof.
  intros p'.
  destruct (singleton_accessor env_ok (fresh_process world_ready) 0%nat p')
    as (_ & Hagain & Hdirect & Hlen & _); [reflexivity|].
  split; [exact (Hagain env_store_down)|]. split; [exact (Hdirect env_ok) | exact Hlen].
Defined.

(** ** Construction *)

(** C6, on the code.  With persistence and input monitoring both disabled
    in the configuration, constructing the singleton still opens a store
    connection (line 49) and still starts the collector thread (line 56
    overrides the option to True); the schema is not created and the
    baseline is None, as the claim says. *)
Theorem construction_ignores_configuration :
  snapshots_database_enabled (config world_off) = false
  ∧ monitor_user_input (config world_off) = false
  ∧ ∃ d' w',
      get_desktop_singleton env_ok (fresh_process world_off)
        = (Ok 0%nat, mkProcess w' [d'] (Some 0%nat))
      ∧ connections_opened w' = 1%nat
      ∧ conn d' = Some 0%nat
      ∧ collector_threads w' = 1%nat
      ∧ monitoring_user_input d' = true
      ∧ has_snapshots_table w' = false
      ∧ base_image d' = None.
Proof. split; [done|]. split; [done|]. eexists _, _. vm_compute. done. Qed.

(** ** The input event collector *)

(** A failure while recording a key press is logged and the handler
    returns, whichever statement raised; the event is not queued. *)
Lemma on_key_press_fault key now at_ e d w :
  on_key_press key now (Some (at_, e)) (d, w)
  = (Ok tt,
     (d, let w1 := logged_before at_ (CapturedKeyPress (Keyboard key now)) w in
         with_log (log w1 ++ [ErrorInKeyPressHandler e]) w1)).
Proof. by destruct at_. Qed.

Lemma key_listener_survives key now f k d w :
  ∃ s', deliver (mkDelivery (KeyPress key) now f) (mkListeners true k) (d, w)
        = (Ok (mkListeners true k), s').
Proof. destruct f as [[[] e]|]; eexists; reflexivity. Qed.

(** A failure to start the listeners is logged; the thread ends, no event
    is ever queued. *)
Lemma listener_start_failure e evs d w :
  _monitor_user_input (Raise e) evs (d, w)
  = (Ok (mkListeners false false), (d, with_log (log w ++ [ErrorStartingListeners e]) w)).
Proof. reflexivity. Qed.

(** C7, on the code.  An exception raised while recording a mouse event
    leaves [on_mouse_click], which has no try/except, with nothing logged
    about it, whichever of the three statements raised: the event is not
    queued and the state is untouched, but for the capture line when the
    put is what raised.  The mouse listener stops and no later mouse event
    is recorded.  So with [two_clicks], a faulty click then a release, the
    queue stays empty and the log too. *)
Theorem mouse_fault_stops_listener x y button pressed now at_ e k d w :
  on_mouse_click x y button pressed now (Some (BuildingData, e)) (d, w) = (Raise e, (d, w))
  ∧ on_mouse_click x y button pressed now (Some (at_, e)) (d, w)
    = (Raise e,
       (d, logged_before at_
             (CapturedMouseEvent (Mouse (if pressed then "click" else "release") (x, y) now))
             w))
  ∧ deliver (mkDelivery (MouseClick x y button pressed) now (Some (at_, e)))
            (mkListeners k true) (d, w)
    = (Ok (mkListeners k false),
       (d, logged_before at_
             (CapturedMouseEvent (Mouse (if pressed then "click" else "release") (x, y) now))
             w))
  ∧ (∀ x' y' button' pressed' now' f' s,
       deliver (mkDelivery (MouseClick x' y' button' pressed') now' f') (mkListeners k false) s
       = (Ok (mkListeners k false), s))
  ∧ _monitor_user_input (Ok tt) two_clicks (desktop_on None [], world_ready)
    = (Ok (mkListeners true false), (desktop_on None [], world_ready)).
Proof. destruct at_; repeat split. Qed.

(** ** Concurrent captures *)

(** A thread that runs alone does what [_save_screenshot_diff] does. *)
Lemma thread_alone env new_img s :
  let '(t1, s1) := thread_step (mkThread env new_img AtDiff) s in
  let '(t2, s2) := thread_step t1 s1 in
  let '(t3, s3) := thread_step t2 s2 in
  s3 = snd (_save_screenshot_diff env new_img s)
  ∧ t_pc t3 = match fst (_save_screenshot_diff env new_img s) with
              | Ok _ => Returned
              | Raise e => Raised e
              end.
Proof.
  destruct s as [d w]. rewrite _save_screenshot_diff_run.
  unfold thread_step, at_pc. simpl.
  destruct (base_image d) as [base|]; simpl; [|done].
  destruct (diff_region base new_img) as [region|e]; simpl; [|done].
  destruct (persist env new_img region (d, w)) as [[[]|e] [d1 w1]]; simpl; done.
Qed.

(** C9, on the code.  self.lock is created and never acquired, so two
    capture calls can interleave.  From baseline [frame_black], with one
    thread capturing [frame_patch] and the other [frame_black], the
    schedule [raced] lets both diff against the old baseline: it ends with
    baseline [frame_black] and one record, which neither serial order gives
    (two records, or baseline [frame_patch]); the lock is not held. *)
Theorem unlocked_captures_race :
  let s0 := (desktop_on (Some frame_black) [], world_ready) in
  outcome (snd (run_schedule raced thread_a thread_b s0)) = (Some frame_black, 1%nat)
  ∧ outcome (snd (run_schedule serial_ab thread_a thread_b s0)) = (Some frame_black, 2%nat)
  ∧ outcome (snd (run_schedule serial_ba thread_a thread_b s0)) = (Some frame_patch, 1%nat)
  ∧ lock (fst (snd (run_schedule raced thread_a thread_b s0))) = false.
Proof. vm_compute. done. Qed.

(** * Further properties of the code *)

(** ** Captures without persistence, and the baseline *)

(** X1. With persistence disabled a capture call whose file dump, if
    configured, does not raise returns the frame and touches neither the
    store nor the OCR engine nor the queue; it sets the baseline only when
    there was none and otherwise leaves it as it is. *)
Theorem capture_without_persistence env frame d w :
  snapshots_database_enabled (config w) = false ->
  (write_screenshots_to_files (config w) = true -> fs_writable env = true) ->
  ∃ w',
    take_fullscreen_screenshot env frame (d, w)
    = (Ok frame, (match base_image d with
                  | None => with_base_image (Some frame) d
                  | Some _ => d
                  end, w'))
    ∧ snapshots w' = snapshots w
    ∧ ocr_calls w' = ocr_calls w
    ∧ connections_opened w' = connections_opened w
    ∧ config w' = config w.
Proof.
  intros Hoff Hfs.
  destruct (take_fullscreen_screenshot env frame (d, w)) as [r [d' w']] eqn:Hrun.
  exists w'. split_cycle Hrun.
  all: simplify_eq; simpl in *; file_dump_ok Hfs.
  all: done.
Qed.

Lemma capture_without_persistence_witness :
  ∃ w',
    take_fullscreen_screenshot env_ok frame_patch (desktop_on (Some frame_black) [key_a], world_off)
    = (Ok frame_patch, (desktop_on (Some frame_black) [key_a], w'))
    ∧ snapshots w' = snapshots world_off
    ∧ ocr_calls w' = ocr_calls world_off
    ∧ connections_opened w' = connections_opened world_off
    ∧ config w' = config world_off.
Proof.
  apply (capture_without_persistence env_ok frame_patch
           (desktop_on (Some frame_black) [key_a]) world_off).
  - reflexivity.
  - intros _. reflexivity.
Defined.

(** X2. With persistence disabled the baseline, once set, is never
    refreshed: after any sequence of captures the object is the one it was,
    baseline and queue included, and the store has the same rows. *)
Theorem baseline_stale_without_persistence caps base d w :
  snapshots_database_enabled (config w) = false ->
  base_image d = Some base ->
  fst (run_ops (captures caps) (d, w)) = d
  ∧ snapshots (snd (run_ops (captures caps) (d, w))) = snapshots w.
Proof.
  revert w. induction caps as [|[env frame] caps IH]; intros w Hoff Hbase; [done|].
  simpl. change (run_ops (Capture env frame :: captures caps) (d, w))
    with (run_ops (captures caps) (snd (take_fullscreen_screenshot env frame (d, w)))).
  destruct (take_fullscreen_screenshot env frame (d, w)) as [r [d' w']] eqn:Hrun.
  split_cycle Hrun.
  all: simplify_eq; simpl in *.
  all: try (destruct (IH w' Hoff Hbase) as [-> ->]; done).
  all: match goal with
       | |- context [run_ops _ (_, ?w1)] =>
           destruct (IH w1) as [-> ->]; done
       end.
Qed.

Lemma baseline_stale_without_persistence_witness :
  base_image (fst (run_ops (captures [(env_ok, frame_patch); (env_ok, frame_blue)])
                           (desktop_on (Some frame_black) [key_a], world_off)))
  = Some frame_black.
Proof.
  destruct (baseline_stale_without_persistence
              [(env_ok, frame_patch); (env_ok, frame_blue)] frame_black
              (desktop_on (Some frame_black) [key_a]) world_off) as [Hd _];
    [reflexivity | reflexivity |].
  rewrite Hd. reflexivity.
Defined.

(** X3. With persistence enabled, a capture call that returns returns the
    captured frame, leaves it as the baseline, has emptied the queue and has
    called the OCR engine once, on that frame. *)
Theorem baseline_advances env frame d w out d' w' :
  snapshots_database_enabled (config w) = true ->
  take_fullscreen_screenshot env frame (d, w) = (Ok out, (d', w')) ->
  out = frame ∧ base_image d' = Some frame ∧ user_input_queue d' = []
  ∧ ocr_calls w' = ocr_calls w ++ [frame].
Proof.
  intros Hen Hrun. split_cycle Hrun.
  all: simplify_eq; simpl in *.
  all: done.
Qed.

Lemma baseline_advances_witness :
  let run := take_fullscreen_screenshot env_ok frame_patch
               (desktop_on (Some frame_black) [key_a], world_ready) in
  base_image (fst (snd run)) = Some frame_patch
  ∧ ocr_calls (snd (snd run)) = ocr_calls world_ready ++ [frame_patch].
Proof.
  intros run.
  destruct (baseline_advances env_ok frame_patch (desktop_on (Some frame_black) [key_a])
              world_ready frame_patch (fst (snd run)) (snd (snd run)))
    as (_ & Hbase & _ & Hocr); [reflexivity | reflexivity |].
  split; [exact Hbase | exact Hocr].
Defined.

(** X4. When the OCR engine raises in a cycle that reaches it (a baseline
    present, the file dump, if configured, not raising, the diff done), the
    exception leaves the capture call before the drain: no record is
    written, no connection opened, nothing logged, and the object keeps its
    baseline and its queued events. *)
Theorem ocr_failure_propagates env frame d w base region e :
  snapshots_database_enabled (config w) = true ->
  (write_screenshots_to_files (config w) = true -> fs_writable env = true) ->
  base_image d = Some base ->
  diff_region base frame = Ok region ->
  extract_text env frame = Raise e ->
  ∃ w',
    take_fullscreen_screenshot env frame (d, w) = (Raise e, (d, w'))
    ∧ snapshots w' = snapshots w
    ∧ connections_opened w' = connections_opened w
    ∧ log w' = log w
    ∧ ocr_calls w' = ocr_calls w ++ [frame].
Proof.
  intros Hen Hfs Hbase Hdiff Hocr.
  destruct (take_fullscreen_screenshot env frame (d, w)) as [r [d' w']] eqn:Hrun.
  exists w'. split_cycle Hrun.
  all: simplify_eq; simpl in *; file_dump_ok Hfs.
  all: try congruence.
  all: done.
Qed.

Lemma ocr_failure_propagates_witness :
  ∃ w',
    take_fullscreen_screenshot env_ocr_down frame_patch
      (desktop_on (Some frame_black) [key_a], world_ready)
    = (Raise OcrError, (desktop_on (Some frame_black) [key_a], w'))
    ∧ snapshots w' = snapshots world_ready
    ∧ connections_opened w' = connections_opened world_ready
    ∧ log w' = log world_ready
    ∧ ocr_calls w' = ocr_calls world_ready ++ [frame_patch].
Proof.
  apply (ocr_failure_propagates env_ocr_down frame_patch
           (desktop_on (Some frame_black) [key_a]) world_ready frame_black
           (of_nats 1 0 2 1) OcrError).
  - reflexivity.
  - intros _. reflexivity.
  - reflexivity.
  - vm_compute. reflexivity.
  - reflexivity.
Defined.

Lemma absdiff_shape_mismatch base frame :
  shape base ≠ shape frame -> diff_region base frame = Raise CvError.
Proof.
  intros Hne. unfold diff_region, diff_mask, absdiff, same_shape.
  by rewrite bool_decide_eq_false_2.
Qed.

Lemma mismatched_capture env frame d w base :
  snapshots_database_enabled (config w) = true ->
  base_image d = Some base ->
  shape base ≠ shape frame ->
  ∃ e w',
    take_fullscreen_screenshot env frame (d, w) = (Raise e, (d, w'))
    ∧ (e = CvError ∨ e = OSError)
    ∧ config w' = config w
    ∧ snapshots w' = snapshots w
    ∧ ocr_calls w' = ocr_calls w.
Proof.
  intros Hen Hbase Hne. apply absdiff_shape_mismatch in Hne.
  destruct (take_fullscreen_screenshot env frame (d, w)) as [r [d' w']] eqn:Hrun.
  split_cycle Hrun.
  all: simplify_eq; simpl in *; try congruence.
  all: eexists _, _; split; [reflexivity|]; simpl; repeat split; auto.
  all: left; congruence.
Qed.

(** X5. With persistence enabled, frames whose shape differs from the
    baseline's (a changed resolution) never get through: each such capture
    raises from cv2.absdiff (or from the file dump before it), and since the
    baseline is only replaced after a diff, after any number of them the
    object, the store and the OCR engine are untouched and the next one
    raises again. *)
Theorem resolution_change_blocks_captures caps env frame d w base :
  snapshots_database_enabled (config w) = true ->
  base_image d = Some base ->
  Forall (fun c => shape base ≠ shape (snd c)) caps ->
  shape base ≠ shape frame ->
  fst (run_ops (captures caps) (d, w)) = d
  ∧ snapshots (snd (run_ops (captures caps) (d, w))) = snapshots w
  ∧ ocr_calls (snd (run_ops (captures caps) (d, w))) = ocr_calls w
  ∧ ∃ e, fst (take_fullscreen_screenshot env frame (run_ops (captures caps) (d, w)))
         = Raise e
         ∧ (e = CvError ∨ e = OSError).
Proof.
  intros Hen Hbase Hcaps Hne. revert w Hen.
  induction Hcaps as [|[env1 f1] caps Hf1 Hcaps IH]; intros w Hen; simpl.
  - split; [done|]. split; [done|]. split; [done|].
    destruct (mismatched_capture env frame d w base Hen Hbase Hne)
      as (e & w' & Hrun & He & _).
    exists e. unfold run_ops. simpl. by rewrite Hrun.
  - change (run_ops (Capture env1 f1 :: captures caps) (d, w))
      with (run_ops (captures caps) (snd (take_fullscreen_screenshot env1 f1 (d, w)))).
    destruct (mismatched_capture env1 f1 d w base Hen Hbase Hf1)
      as (e1 & w1 & Hrun & _ & Hcfg & Hs & Ho).
    rewrite Hrun. simpl. rewrite <- Hs, <- Ho. apply IH. by rewrite Hcfg.
Qed.

Lemma resolution_change_blocks_captures_witness :
  base_image (fst (run_ops (captures [(env_ok, frame_small); (env_ok, frame_small)])
                           (desktop_on (Some frame_black) [key_a], world_ready)))
  = Some frame_black
  ∧ fst (take_fullscreen_screenshot env_ok frame_small
           (run_ops (captures [(env_ok, frame_small); (env_ok, frame_small)])
                    (desktop_on (Some frame_black) [key_a], world_ready)))
    = Raise CvError.
Proof.
  destruct (resolution_change_blocks_captures
              [(env_ok, frame_small); (env_ok, frame_small)] env_ok frame_small
              (desktop_on (Some frame_black) [key_a]) world_ready frame_black)
    as (Hd & _ & _ & _).
  - reflexivity.
  - reflexivity.
  - repeat constructor; simpl; discriminate.
  - simpl. discriminate.
  - rewrite Hd. split; reflexivity.
Defined.

(** ** The file dump *)

Lemma read_write_same path img fs : read_file path (write_file path img fs) = Some img.
Proof.
  induction fs as [|[p f] fs IH]; simpl.
  - by rewrite String.eqb_refl.
  - destruct (String.eqb p path) eqn:Hp; simpl; [by rewrite String.eqb_refl | by rewrite Hp].
Qed.

Lemma read_write_other path q img fs :
  q ≠ path -> read_file q (write_file path img fs) = read_file q fs.
Proof.
  intros Hq. assert (Hpq : String.eqb path q = false).
  { apply String.eqb_neq. congruence. }
  induction fs as [|[p f] fs IH]; simpl.
  - by rewrite Hpq.
  - destruct (String.eqb p path) eqn:Hp; simpl.
    + apply String.eqb_eq in Hp as ->. by rewrite Hpq.
    + by rewrite IH.
Qed.

Lemma length_write_file path img fs :
  length (write_file path img fs)
  = match read_file path fs with Some _ => length fs | None => S (length fs) end.
Proof.
  induction fs as [|[p f] fs IH]; simpl; [done|].
  destruct (String.eqb p path); simpl; [done|]. rewrite IH.
  by destruct (read_file path fs).
Qed.

(** The files after a capture call, whatever its outcome. *)
Lemma capture_files env frame d w :
  files (snd (snd (take_fullscreen_screenshot env frame (d, w))))
  = if write_screenshots_to_files (config w) && fs_writable env && imwrite_ok env then
      write_file (snapshot_path env w) frame (files w)
    else files w.
Proof.
  rewrite take_fullscreen_screenshot_run. unfold before_diff. simpl.
  destruct (write_screenshots_to_files (config w)) eqn:Hw;
    destruct (fs_writable env) eqn:Hfs; destruct (imwrite_ok env) eqn:Him; simpl; try done.
  all: destruct (snapshots_database_enabled (config w)); simpl; [|done].
  all: rewrite _save_screenshot_diff_run; simpl.
  all: destruct (base_image d) as [base|] eqn:Hb; simpl; rewrite ?Hb.
  all: match goal with |- context [diff_region ?a ?b] => destruct (diff_region a b) end;
       simpl; try done.
  all: rewrite persist_run; simpl.
  all: destruct (extract_text env frame); simpl; try done.
  all: match goal with |- context [non_degenerate ?r] => destruct (non_degenerate r) end;
       simpl; try done.
  all: destruct (db_openable env); simpl; try done.
  all: destruct (has_snapshots_table w); done.
Qed.

(** X6. When write_screenshots_to_files is set, os.makedirs succeeds and
    cv2.imwrite manages to write, then after a capture call, whatever
    happens to the call afterwards (diff, OCR or store raising included),
    the file snapshot_<YYYYmmddHHMMSS>.png of the snapshot directory holds
    the full frame, every other file is as it was, and the number of files
    has grown by one unless that path existed (a capture of the same
    second): then the file is overwritten.  Otherwise the files are
    unchanged. *)
Theorem frame_dump env frame d w :
  let after := files (snd (snd (take_fullscreen_screenshot env frame (d, w)))) in
  let path := os_path_join (snapshot_images (config w))
                           ("snapshot_" +:+ now_compact env +:+ ".png") in
  if write_screenshots_to_files (config w) && fs_writable env && imwrite_ok env then
    read_file path after = Some frame
    ∧ (∀ q, q ≠ path -> read_file q after = read_file q (files w))
    ∧ length after = match read_file path (files w) with
                     | Some _ => length (files w)
                     | None => S (length (files w))
                     end
  else after = files w.
Proof.
  intros after path. unfold after. rewrite capture_files. fold path.
  change (snapshot_path env w) with path.
  destruct (write_screenshots_to_files (config w) && fs_writable env && imwrite_ok env);
    [|done].
  split; [apply read_write_same|]. split; [intros q Hq; by apply read_write_other|].
  apply length_write_file.
Qed.

(** Two captures within one second leave one file, holding the later frame. *)
Lemma frame_dump_witness :
  let s1 := snd (take_fullscreen_screenshot env_ok frame_black (desktop_on None [], world_dump)) in
  let s2 := snd (take_fullscreen_screenshot env_ok frame_patch s1) in
  files (snd s1) = [("snapshots/snapshot_20241201100002.png", frame_black)]
  ∧ read_file "snapshots/snapshot_20241201100002.png" (files (snd s2)) = Some frame_patch
  ∧ length (files (snd s2)) = 1%nat.
Proof.
  intros s1 s2. split; [reflexivity|].
  pose proof (frame_dump env_ok frame_patch (fst s1) (snd s1)) as H.
  cbv zeta in H.
  change (write_screenshots_to_files (config (snd s1)) && fs_writable env_ok
          && imwrite_ok env_ok) with true in H.
  cbv iota in H. destruct H as (Hread & _ & Hlen).
  split; [exact Hread | exact Hlen].
Defined.

(** X7. The two ways the file dump fails.  When os.makedirs raises, the
    capture call raises OSError before the diff step: store, OCR engine,
    log and queue are untouched, and the only change is that a missing
    baseline has been set to the frame.  When the directory is there and
    cv2.imwrite cannot write, nothing is raised: its answer is dropped and
    the call goes on exactly as with the option off. *)
Theorem frame_dump_failure env frame d w :
  write_screenshots_to_files (config w) = true ->
  (fs_writable env = false ->
   take_fullscreen_screenshot env frame (d, w)
   = (Raise OSError,
      (match base_image d with None => with_base_image (Some frame) d | Some _ => d end, w)))
  ∧ (fs_writable env = true -> imwrite_ok env = false ->
     take_fullscreen_screenshot env frame (d, w)
     = let '(r, (d', w')) :=
         take_fullscreen_screenshot env frame (d, with_config (dump_off (config w)) w) in
       (r, (d', with_config (config w) w'))).
Proof.
  intros Hw. split.
  - intros Hfs. rewrite take_fullscreen_screenshot_run, Hw, Hfs. done.
  - intros Hfs Him. rewrite !take_fullscreen_screenshot_run.
    unfold before_diff. destruct w as [c t sn co th fi oc lg]. simpl in *.
    rewrite Hw, Hfs, Him. simpl.
    destruct (snapshots_database_enabled c); [|reflexivity].
    rewrite !_save_screenshot_diff_run.
    destruct (base_image d) as [base|] eqn:Hb; simpl; rewrite ?Hb.
    + destruct (diff_region base frame) as [region|e]; [|reflexivity].
      rewrite !persist_run. simpl.
      destruct (extract_text env frame); [|reflexivity].
      destruct (non_degenerate region); [|reflexivity].
      destruct (db_openable env); [|reflexivity].
      destruct t; reflexivity.
    + destruct (diff_region frame frame) as [region|e]; [|reflexivity].
      rewrite !persist_run. simpl.
      destruct (extract_text env frame); [|reflexivity].
      destruct (non_degenerate region); [|reflexivity].
      destruct (db_openable env); [|reflexivity].
      destruct t; reflexivity.
Qed.

Lemma frame_dump_failure_witness :
  take_fullscreen_screenshot env_disk_full frame_patch (desktop_on None [key_a], world_dump)
  = (Raise OSError, (desktop_on (Some frame_patch) [key_a], world_dump))
  ∧ take_fullscreen_screenshot env_imwrite_fails frame_patch
      (desktop_on (Some frame_black) [key_a], world_dump)
    = (Ok frame_patch,
       (desktop_on (Some frame_patch) [],
        with_config config_dump
          (snd (snd (take_fullscreen_screenshot env_imwrite_fails frame_patch
                       (desktop_on (Some frame_black) [key_a],
                        with_config (dump_off config_dump) world_dump)))))).
Proof.
  split.
  - apply (frame_dump_failure env_disk_full frame_patch (desktop_on None [key_a]) world_dump);
      reflexivity.
  - rewrite (proj2 (frame_dump_failure env_imwrite_fails frame_patch
                      (desktop_on (Some frame_black) [key_a]) world_dump eq_refl)
               eq_refl eq_refl).
    reflexivity.
Defined.

(** X24. What a capture call never touches, whatever its outcome: the
    configuration, the table, the collector threads and the log outside
    the object, and the platform, self.conn, the lock and the monitoring
    flag inside it.  It opens at most one connection, its own, and only for
    a region of positive width and height. *)
Theorem capture_keeps env frame d w r d' w' :
  take_fullscreen_screenshot env frame (d, w) = (r, (d', w')) ->
  config w' = config w
  ∧ has_snapshots_table w' = has_snapshots_table w
  ∧ collector_threads w' = collector_threads w
  ∧ log w' = log w
  ∧ system d' = system d ∧ conn d' = conn d ∧ lock d' = lock d
  ∧ monitoring_user_input d' = monitoring_user_input d
  ∧ (connections_opened w' = connections_opened w
     ∨ (connections_opened w' = S (connections_opened w)
        ∧ ∃ base region,
            base_image d = Some base ∧ diff_region base frame = Ok region
            ∧ 0 < rect_width region ∧ 0 < rect_height region)).
Proof.
  intros Hrun. split_cycle Hrun.
  all: simplify_eq; simpl in *; nd_facts.
  all: repeat (split; [done|]).
  all: try (left; reflexivity).
  all: right; split; [reflexivity|]; eauto.
  all: exfalso; rewrite diff_region_same in *; simplify_eq; simpl in *; lia.
Qed.

Lemma capture_keeps_witness :
  let run := take_fullscreen_screenshot env_ok frame_patch
               (desktop_on (Some frame_black) [key_a], world_ready) in
  conn (fst (snd run)) = Some 0%nat
  ∧ config (snd (snd run)) = config_on
  ∧ connections_opened (snd (snd run)) = 1%nat.
Proof.
  intros run.
  destruct (capture_keeps env_ok frame_patch (desktop_on (Some frame_black) [key_a])
              world_ready (fst run) (fst (snd run)) (snd (snd run)))
    as (Hcfg & _ & _ & _ & _ & Hconn & _); [reflexivity|].
  split; [exact Hconn|]. split; [exact Hcfg | reflexivity].
Defined.

(** ** The region and the stored image *)

Lemma find_first_le_last p n a b :
  find_first p 0 n = Some a -> find_last p n = Some b -> (a ≤ b < n)%nat.
Proof.
  intros Ha Hb.
  destruct (find_first_Some _ _ _ _ Ha) as (_ & _ & Hmin).
  destruct (find_last_Some _ _ _ Hb) as (Hlt & Hpb & _).
  split; [|done]. destruct (le_lt_dec a b); [done|].
  rewrite Hmin in Hpb; [discriminate | lia].
Qed.

Lemma boundingRect_within (h w : nat) (m : Gray) :
  rectangular h w m ->
  boundingRect m = mkRect 0 0 0 0
  ∨ (0 ≤ rect_x (boundingRect m) ∧ 0 < rect_width (boundingRect m)
     ∧ rect_x (boundingRect m) + rect_width (boundingRect m) ≤ Z.of_nat w
     ∧ 0 ≤ rect_y (boundingRect m) ∧ 0 < rect_height (boundingRect m)
     ∧ rect_y (boundingRect m) + rect_height (boundingRect m) ≤ Z.of_nat h).
Proof.
  intros Hrect. unfold boundingRect.
  destruct (find_first (row_nonzero m) 0 (length m)) as [y0|] eqn:Hy0; [|by left].
  destruct (find_last (row_nonzero m) (length m)) as [y1|] eqn:Hy1; [|by left].
  destruct (find_first (col_nonzero m) 0 (cols m)) as [x0|] eqn:Hx0; [|by left].
  destruct (find_last (col_nonzero m) (cols m)) as [x1|] eqn:Hx1; [|by left].
  right. simpl.
  pose proof (find_first_le_last _ _ _ _ Hy0 Hy1) as Hy.
  pose proof (find_first_le_last _ _ _ _ Hx0 Hx1) as Hx.
  assert (Hcols : cols m = w).
  { apply (rectangular_cols h); [done|]. destruct Hrect as [<- _]. lia. }
  destruct Hrect as [Hlen _]. rewrite Hcols in Hx. rewrite Hlen in Hy. lia.
Qed.

(** X8. For two frames of h rows and w columns, the region the diff engine
    reports is either (0, 0, 0, 0) or has positive width and height and lies
    inside the frame: it is never degenerate in one direction only, so the
    test of line 144 only ever separates (0, 0, 0, 0) from real regions. *)
Theorem diff_region_within (h w : nat) base new_img region :
  rectangular h w base -> rectangular h w new_img ->
  diff_region base new_img = Ok region ->
  (region = mkRect 0 0 0 0 ∧ non_degenerate region = false)
  ∨ (non_degenerate region = true
     ∧ 0 ≤ rect_x region ∧ 0 < rect_width region
     ∧ rect_x region + rect_width region ≤ Z.of_nat w
     ∧ 0 ≤ rect_y region ∧ 0 < rect_height region
     ∧ rect_y region + rect_height region ≤ Z.of_nat h).
Proof.
  intros Hb Hn Hdiff. unfold diff_region in Hdiff.
  destruct (diff_mask base new_img) as [mask|e] eqn:Hmask; [|discriminate].
  injection Hdiff as <-.
  assert (Hm : rectangular h w mask) by eauto using diff_mask_rectangular.
  destruct (boundingRect_within h w mask Hm) as [->|Hin]; [by left|].
  right. split; [|done]. apply non_degenerate_true. lia.
Qed.

Lemma diff_region_within_witness :
  non_degenerate (of_nats 1 0 2 1) = true
  ∧ rect_x (of_nats 1 0 2 1) + rect_width (of_nats 1 0 2 1) ≤ 3
  ∧ rect_y (of_nats 1 0 2 1) + rect_height (of_nats 1 0 2 1) ≤ 2.
Proof.
  destruct (diff_region_within 2 3 frame_black frame_patch (of_nats 1 0 2 1))
    as [[Hz _]|(Hnd & _ & _ & Hx & _ & _ & Hy)].
  - split; [reflexivity | repeat constructor].
  - split; [reflexivity | repeat constructor].
  - vm_compute. reflexivity.
  - discriminate Hz.
  - split; [exact Hnd|]. split; [exact Hx | exact Hy].
Defined.

Lemma crop_px (img : Frame) r (i j : nat) :
  0 ≤ rect_x r -> 0 ≤ rect_y r ->
  (Z.of_nat i < rect_height r) -> (Z.of_nat j < rect_width r) ->
  px (crop img r) i j = px img (Z.to_nat (rect_y r) + i) (Z.to_nat (rect_x r) + j).
Proof.
  intros Hx Hy Hi Hj. unfold px, crop.
  rewrite list_lookup_fmap, lookup_take_lt by lia. rewrite lookup_drop.
  destruct (img !! (Z.to_nat (rect_y r) + i)%nat) as [row|]; simpl; [|done].
  rewrite lookup_take_lt by lia. by rewrite lookup_drop.
Qed.

Lemma crop_rectangular (h w : nat) (img : Frame) r :
  rectangular h w img ->
  0 ≤ rect_x r -> 0 ≤ rect_y r -> 0 ≤ rect_width r -> 0 ≤ rect_height r ->
  rect_x r + rect_width r ≤ Z.of_nat w ->
  rect_y r + rect_height r ≤ Z.of_nat h ->
  rectangular (Z.to_nat (rect_height r)) (Z.to_nat (rect_width r)) (crop img r).
Proof.
  intros [Hlen Hrows] Hx Hy Hw Hh Hxw Hyh. unfold crop. split.
  - rewrite length_fmap, length_take, length_drop. lia.
  - rewrite Forall_fmap. apply Forall_take, Forall_drop.
    eapply Forall_impl; [exact Hrows|]. intros row Hrow. simpl.
    simpl in Hrow. rewrite length_take, length_drop. lia.
Qed.

(** X9. The image stored with a record is the new frame cut to the
    record's region, which is the diff of the frame against the baseline:
    it has the region's height and width, and its pixel (i, j) is the
    frame's pixel (y + i, x + j). *)
Theorem stored_crop env frame d w r d' w' row base (h wd : nat) :
  snapshots_database_enabled (config w) = true ->
  base_image d = Some base ->
  rectangular h wd base -> rectangular h wd frame ->
  take_fullscreen_screenshot env frame (d, w) = (r, (d', w')) ->
  snapshots w' = snapshots w ++ [row] ->
  diff_region base frame = Ok (row_position row)
  ∧ row_data row = crop frame (row_position row)
  ∧ rectangular (Z.to_nat (rect_height (row_position row)))
                (Z.to_nat (rect_width (row_position row))) (row_data row)
  ∧ (∀ i j : nat,
       Z.of_nat i < rect_height (row_position row) ->
       Z.of_nat j < rect_width (row_position row) ->
       px (row_data row) i j
       = px frame (Z.to_nat (rect_y (row_position row)) + i)
                  (Z.to_nat (rect_x (row_position row)) + j)
         ∧ is_Some (px (row_data row) i j)).
Proof.
  intros Hen Hbase Hb Hf Hrun Hrow.
  assert (Hfacts : diff_region base frame = Ok (row_position row)
                   ∧ row_data row = crop frame (row_position row)
                   ∧ non_degenerate (row_position row) = true).
  { split_cycle Hrun.
    all: simplify_eq; simpl in *.
    all: try by destruct (app_one_neq _ _ Hrow).
    all: apply app_inj_tail in Hrow as [_ <-]; simpl; done. }
  destruct Hfacts as (Hdiff & Hdata & Hnd). split; [done|]. split; [done|].
  assert (Hin : 0 ≤ rect_x (row_position row) ∧ 0 < rect_width (row_position row)
                ∧ rect_x (row_position row) + rect_width (row_position row) ≤ Z.of_nat wd
                ∧ 0 ≤ rect_y (row_position row) ∧ 0 < rect_height (row_position row)
                ∧ rect_y (row_position row) + rect_height (row_position row) ≤ Z.of_nat h).
  { unfold diff_region in Hdiff.
    destruct (diff_mask base frame) as [mask|e] eqn:Hmask; [|discriminate].
    injection Hdiff as Hpos.
    assert (Hm : rectangular h wd mask) by eauto using diff_mask_rectangular.
    destruct (boundingRect_within h wd mask Hm) as [Hz|Hin]; rewrite Hpos in *; [|done].
    rewrite Hz in Hnd. discriminate. }
  destruct Hin as (Hx & Hw & Hxw & Hy & Hh & Hyh).
  assert (Hrect : rectangular (Z.to_nat (rect_height (row_position row)))
                    (Z.to_nat (rect_width (row_position row))) (row_data row)).
  { rewrite Hdata. apply (crop_rectangular h wd); (done || lia). }
  split; [done|].
  intros i j Hi Hj. split.
  - rewrite Hdata. by apply crop_px.
  - apply (px_defined _ _ _ _ _ Hrect); lia.
Qed.

Lemma stored_crop_witness :
  let run := take_fullscreen_screenshot env_ok frame_patch
               (desktop_on (Some frame_black) [key_a], world_ready) in
  row_data <$> snapshots (snd (snd run)) = [[[white; white]]]
  ∧ ∀ row, snapshots (snd (snd run)) = snapshots world_ready ++ [row] ->
           rectangular 1 2 (row_data row).
Proof.
  intros run. split; [vm_compute; reflexivity|].
  intros row Hrow.
  destruct (stored_crop env_ok frame_patch (desktop_on (Some frame_black) [key_a])
              world_ready (fst run) (fst (snd run)) (snd (snd run)) row frame_black 2 3)
    as (Hdiff & _ & Hrect & _).
  - reflexivity.
  - reflexivity.
  - split; [reflexivity | repeat constructor].
  - split; [reflexivity | repeat constructor].
  - reflexivity.
  - exact Hrow.
  - assert (Hreg : diff_region frame_black frame_patch = Ok (of_nats 1 0 2 1))
      by (vm_compute; reflexivity).
    rewrite Hreg in Hdiff. injection Hdiff as Hpos. rewrite <- Hpos in Hrect. exact Hrect.
Defined.

Lemma gray_px_le_30 p :
  0 ≤ blue p -> 0 ≤ green p -> 0 ≤ red p ->
  blue p * 3735 + green p * 19235 + red p * 9798 ≤ 30 * 32768 + 16383 ->
  gray_px p ≤ 30.
Proof.
  intros Hb Hg Hr Hsum. unfold gray_px. rewrite Z.shiftr_div_pow2 by lia.
  change (Z.shiftl 1 14) with 16384. change (2 ^ 15) with 32768.
  apply Z.lt_succ_r. apply Z.div_lt_upper_bound; lia.
Qed.

(** X10. Changes the diff engine does not see: when, at every pixel,
    either no channel differs by more than 30 or only the blue channel
    differs (by any amount, channels being bytes), the region is
    (0, 0, 0, 0) and the capture writes no record. *)
Theorem undetected_changes (base new_img : Frame) :
  same_shape base new_img = true ->
  (∀ i j p q, px base i j = Some p -> px new_img i j = Some q ->
     (Z.abs (blue p - blue q) ≤ 30 ∧ Z.abs (green p - green q) ≤ 30
      ∧ Z.abs (red p - red q) ≤ 30)
     ∨ (green p = green q ∧ red p = red q
        ∧ 0 ≤ blue p ≤ 255 ∧ 0 ≤ blue q ≤ 255)) ->
  diff_region base new_img = Ok (mkRect 0 0 0 0).
Proof.
  intros Hshape Hpx.
  destruct (diff_mask base new_img) as [mask|e] eqn:Hmask.
  2:{ unfold diff_mask, absdiff in Hmask. by rewrite Hshape in Hmask. }
  unfold diff_region. rewrite Hmask. f_equal. apply boundingRect_blank.
  intros i j v. rewrite (diff_mask_px _ _ _ i j Hmask).
  destruct (px base i j) as [p|] eqn:Hp; [|discriminate].
  destruct (px new_img i j) as [q|] eqn:Hq; [|discriminate].
  intros [= <-].
  assert (Hg : gray_px (absdiff_px p q) ≤ 30).
  { apply gray_px_le_30; unfold absdiff_px; simpl; try apply Z.abs_nonneg.
    destruct (Hpx i j p q Hp Hq) as [(Hb & Hg & Hr)|(Hg & Hr & Hb1 & Hb2)]; [lia|].
    rewrite Hg, Hr, !Z.sub_diag. simpl. lia. }
  unfold threshold_px. destruct (Z.ltb_spec 30 (gray_px (absdiff_px p q))); [lia | done].
Qed.

Lemma undetected_changes_witness :
  frame_black ≠ frame_blue
  ∧ diff_region frame_black frame_blue = Ok (mkRect 0 0 0 0).
Proof.
  split; [discriminate|].
  apply (undetected_changes frame_black frame_blue); [reflexivity|].
  intros i j p q.
  destruct i as [|[|i]]; destruct j as [|[|[|j]]]; simpl;
    try discriminate; intros [= <-] [= <-]; right; simpl; lia.
Defined.

(** ** The store and the events along a history *)

(** X11. The store only grows: along any history of produced events and
    capture calls the rows present at the start stay as they are and in
    place, at most one row is added per capture call, and every added row
    has type "desktop_screenshot" and a region of positive width and
    height. *)
Theorem store_append_only ops s :
  ∃ later,
    snapshots (snd (run_ops ops s)) = snapshots (snd s) ++ later
    ∧ (length later ≤ capture_count ops)%nat
    ∧ Forall (fun row => row_type row = "desktop_screenshot"
                         ∧ 0 < rect_width (row_position row)
                         ∧ 0 < rect_height (row_position row)) later.
Proof.
  revert s. induction ops as [|o ops IH]; intros s.
  - exists []. simpl. rewrite app_nil_r. repeat split; [lia | constructor].
  - change (run_ops (o :: ops) s) with (run_ops ops (run_op s o)).
    destruct (IH (run_op s o)) as (later & Hsnap & Hlen & Hall).
    destruct o as [e0|env frame].
    + exists later. split; [by destruct s|]. done.
    + destruct s as [d w]. simpl in *.
      destruct (take_fullscreen_screenshot env frame (d, w)) as [r [d' w']] eqn:Hrun.
      simpl in *.
      assert (Hstep : snapshots w' = snapshots w
                      ∨ ∃ row, snapshots w' = snapshots w ++ [row]
                          ∧ row_type row = "desktop_screenshot"
                          ∧ 0 < rect_width (row_position row)
                          ∧ 0 < rect_height (row_position row)).
      { split_cycle Hrun.
        all: simplify_eq; simpl; nd_facts.
        all: try (left; reflexivity).
        all: right; eexists; split; [reflexivity|]; simpl; done. }
      destruct Hstep as [Hs|(row & Hs & Hrow)].
      * exists later. rewrite Hsnap, Hs. repeat split; [lia | done].
      * exists (row :: later). rewrite Hsnap, Hs, <- app_assoc. simpl.
        repeat split; [lia | by constructor].
Qed.

(** X12. No event is recorded twice or out of order: along any history,
    the events of the rows added, in row order, followed by the events
    still queued, form a subsequence of the events queued at the start
    followed by the events produced. *)
Theorem events_conserved ops s :
  ∃ later,
    snapshots (snd (run_ops ops s)) = snapshots (snd s) ++ later
    ∧ sublist (concat (row_user_input <$> later) ++ user_input_queue (fst (run_ops ops s)))
              (user_input_queue (fst s) ++ produced ops).
Proof.
  revert s. induction ops as [|o ops IH]; intros s.
  - exists []. simpl. by rewrite !app_nil_r.
  - change (run_ops (o :: ops) s) with (run_ops ops (run_op s o)).
    destruct (IH (run_op s o)) as (later & Hsnap & Hsub).
    destruct o as [e0|env frame].
    + exists later. split; [by destruct s|].
      destruct s as [d w]. simpl in *. by rewrite <- app_assoc in Hsub.
    + pose proof (capture_step env frame s) as Hstep. simpl in *.
      destruct Hstep as [[Hs [Hq|Hq]]|(row & Hs & Hrow & Hq)].
      * exists later. split; [by rewrite Hsnap, Hs|]. by rewrite <- Hq.
      * exists later. split; [by rewrite Hsnap, Hs|].
        rewrite Hq in Hsub. simpl in Hsub. by apply sublist_inserts_l.
      * exists (row :: later). split; [by rewrite Hsnap, Hs, <- app_assoc|].
        rewrite Hq in Hsub. simpl in *. rewrite Hrow, <- app_assoc.
        by apply sublist_app.
Qed.

(** X17. A screen that does not change adds no record: right after a
    capture call that returned, capturing the same frame again (the OCR
    engine answering, the file dump, if configured, not raising) returns it
    and leaves the object as it is, with no row added and no connection
    opened. *)
Theorem static_screen_adds_no_record env1 env2 frame d w out d1 w1 ocr_results :
  snapshots_database_enabled (config w) = true ->
  take_fullscreen_screenshot env1 frame (d, w) = (Ok out, (d1, w1)) ->
  (write_screenshots_to_files (config w) = true -> fs_writable env2 = true) ->
  extract_text env2 frame = Ok ocr_results ->
  ∃ w2,
    take_fullscreen_screenshot env2 frame (d1, w1) = (Ok frame, (d1, w2))
    ∧ snapshots w2 = snapshots w1
    ∧ connections_opened w2 = connections_opened w1.
Proof.
  intros Hen Hrun1 Hfs Hocr.
  assert (H1 : base_image d1 = Some frame ∧ user_input_queue d1 = []
               ∧ config w1 = config w).
  { split_cycle Hrun1; simplify_eq; simpl in *; done. }
  destruct H1 as (Hbase & Hq & Hcfg).
  destruct (take_fullscreen_screenshot env2 frame (d1, w1)) as [r [d2 w2]] eqn:Hrun2.
  rewrite <- Hcfg in Hen, Hfs.
  exists w2. split_cycle Hrun2.
  all: simplify_eq; simpl in *; file_dump_ok Hfs.
  all: rewrite ?diff_region_same in *; simplify_eq; try congruence.
  all: destruct d1; simpl in *; subst; done.
Qed.

Lemma static_screen_adds_no_record_witness :
  let s1 := snd (take_fullscreen_screenshot env_ok frame_patch
                   (desktop_on (Some frame_black) [key_a], world_ready)) in
  ∃ w2,
    take_fullscreen_screenshot env_ok frame_patch s1 = (Ok frame_patch, (fst s1, w2))
    ∧ snapshots w2 = snapshots (snd s1)
    ∧ connections_opened w2 = connections_opened (snd s1).
Proof.
  intros s1.
  apply (static_screen_adds_no_record env_ok env_ok frame_patch
           (desktop_on (Some frame_black) [key_a]) world_ready frame_patch
           (fst s1) (snd s1) [mkOcrResult "File" (4, 2, 40, 16)]).
  - reflexivity.
  - reflexivity.
  - intros _. reflexivity.
  - reflexivity.
Defined.

(** ** The collector over a sequence of events *)

Lemma with_queue_id d : with_queue (user_input_queue d) d = d.
Proof. by destruct d. Qed.

Lemma with_log_id w : with_log (log w) w = w.
Proof. by destruct w. Qed.

Lemma listen_alive evs d w :
  Forall (fun ev => is_key ev = false -> no_fault ev = true) evs ->
  listen evs (mkListeners true true) (d, w)
  = (Ok (mkListeners true true),
     (with_queue (user_input_queue d ++ (recorded <$> List.filter no_fault evs)) d,
      with_log (log w ++ concat (log_lines <$> evs)) w)).
Proof.
  intros Hevs. revert d w.
  induction Hevs as [|ev evs Hev Hevs IH]; intros d w; simpl.
  - by rewrite !app_nil_r, with_queue_id, with_log_id.
  - unfold bind, deliver.
    destruct ev as [[key|x y button pressed] now [[[] e]|]]; simpl in *;
      try (by specialize (Hev eq_refl));
      rewrite IH; simpl; by rewrite <- ?app_assoc.
Qed.

Lemma listen_mouse_stopped evs d w :
  listen evs (mkListeners true false) (d, w)
  = (Ok (mkListeners true false),
     (with_queue (user_input_queue d
                  ++ (recorded <$> List.filter (fun ev => is_key ev && no_fault ev) evs)) d,
      with_log (log w ++ concat (log_lines <$> List.filter is_key evs)) w)).
Proof.
  revert d w. induction evs as [|ev evs IH]; intros d w; simpl.
  - by rewrite !app_nil_r, with_queue_id, with_log_id.
  - unfold bind, deliver.
    destruct ev as [[key|x y button pressed] now [[[] e]|]]; simpl in *;
      rewrite IH; simpl; by rewrite <- ?app_assoc.
Qed.

Lemma listen_app evs1 evs2 ls s :
  listen (evs1 ++ evs2) ls s
  = match listen evs1 ls s with
    | (Ok ls', s') => listen evs2 ls' s'
    | (Raise e, s') => (Raise e, s')
    end.
Proof.
  revert ls s. induction evs1 as [|ev evs1 IH]; intros ls s; simpl; [done|].
  unfold bind. destruct (deliver ev ls s) as [[ls'|e] s']; [apply IH | done].
Qed.

(** X13. As long as no mouse callback raises, the collector queues the
    events in the order observed, each with its time of observation, a
    click as "click" and a release as "release", and logs a capture line
    for each.  A key press whose recording raises, at whichever statement,
    is not queued: its error line is logged, after its capture line when
    the put is what raised, and both listeners keep running. *)
Theorem monitor_records_in_order evs d w :
  Forall (fun ev => is_key ev = false -> no_fault ev = true) evs ->
  _monitor_user_input (Ok tt) evs (d, w)
  = (Ok (mkListeners true true),
     (with_queue (user_input_queue d ++ (recorded <$> List.filter no_fault evs)) d,
      with_log (log w ++ concat (log_lines <$> evs)) w)).
Proof.
  intros Hevs. unfold _monitor_user_input, try_except, bind, lift.
  by rewrite (listen_alive evs d w Hevs).
Qed.

Lemma monitor_records_in_order_witness :
  _monitor_user_input (Ok tt) key_then_click (desktop_on None [], world_ready)
  = (Ok (mkListeners true true),
     (desktop_on None [Keyboard "'a'" "2024-12-01T10:00:00";
                       Mouse "click" (10, 20) "2024-12-01T10:00:02"],
      with_log [CapturedKeyPress (Keyboard "'a'" "2024-12-01T10:00:00");
                CapturedKeyPress (Keyboard "'b'" "2024-12-01T10:00:01");
                ErrorInKeyPressHandler HandlerFault;
                CapturedMouseEvent (Mouse "click" (10, 20) "2024-12-01T10:00:02")]
               world_ready)).
Proof.
  apply (monitor_records_in_order key_then_click (desktop_on None []) world_ready).
  repeat constructor; simpl; discriminate.
Defined.

Lemma deliver_mouse_fault x y button pressed now at_ e k d w :
  deliver (mkDelivery (MouseClick x y button pressed) now (Some (at_, e)))
          (mkListeners k true) (d, w)
  = (Ok (mkListeners k false),
     (d, logged_before at_
           (CapturedMouseEvent (Mouse (if pressed then "click" else "release") (x, y) now))
           w)).
Proof. by destruct at_. Qed.

(** X14. Once a mouse callback has raised, at whichever statement, mouse
    events are lost for good: the faulty event is not queued (its capture
    line is logged only when the put is what raised), of the events that
    follow only the key presses are queued and logged, and nothing is
    logged about the exception or the stopped listener. *)
Theorem monitor_after_mouse_fault evs1 ev evs2 d w :
  Forall (fun ev => is_key ev = false -> no_fault ev = true) evs1 ->
  is_key ev = false -> no_fault ev = false ->
  _monitor_user_input (Ok tt) (evs1 ++ ev :: evs2) (d, w)
  = (Ok (mkListeners true false),
     (with_queue
        (user_input_queue d
         ++ (recorded <$> List.filter no_fault evs1)
         ++ (recorded <$> List.filter (fun ev => is_key ev && no_fault ev) evs2)) d,
      with_log (log w ++ concat (log_lines <$> evs1) ++ log_lines ev
                ++ concat (log_lines <$> List.filter is_key evs2)) w)).
Proof.
  intros Hevs Hmouse Hfault. unfold _monitor_user_input, try_except, bind, lift.
  rewrite listen_app, (listen_alive evs1 d w Hevs).
  destruct ev as [[key|x y button pressed] now [[at_ e]|]]; try discriminate.
  cbn [listen]. unfold bind at 1. rewrite deliver_mouse_fault.
  rewrite listen_mouse_stopped.
  destruct at_; simpl; by rewrite <- ?app_assoc.
Qed.

Lemma monitor_after_mouse_fault_witness :
  _monitor_user_input (Ok tt) (key_then_click ++ two_clicks) (desktop_on None [], world_ready)
  = (Ok (mkListeners true false),
     (desktop_on None [Keyboard "'a'" "2024-12-01T10:00:00";
                       Mouse "click" (10, 20) "2024-12-01T10:00:02"],
      with_log [CapturedKeyPress (Keyboard "'a'" "2024-12-01T10:00:00");
                CapturedKeyPress (Keyboard "'b'" "2024-12-01T10:00:01");
                ErrorInKeyPressHandler HandlerFault;
                CapturedMouseEvent (Mouse "click" (10, 20) "2024-12-01T10:00:02")]
               world_ready)).
Proof.
  apply (monitor_after_mouse_fault key_then_click
           (mkDelivery (MouseClick 10 20 "Button.left" true) "2024-12-01T10:00:01"
                       (Some (BuildingData, HandlerFault)))
           [mkDelivery (MouseClick 10 20 "Button.left" false) "2024-12-01T10:00:02" None]
           (desktop_on None []) world_ready).
  - repeat constructor; simpl; discriminate.
  - reflexivity.
  - reflexivity.
Defined.

(** ** Constructing the singleton *)

(** X15. A construction that fails registers nothing: when the store
    cannot be opened, the accessor (and Desktop() itself) raises the
    store's error and leaves the process exactly as it was, so that a later
    call constructs again. *)
Theorem failed_construction_registers_nothing env p :
  _instance p = None ->
  db_openable env = false ->
  get_desktop_singleton env p = (Raise OperationalError, p)
  ∧ construct env p = (Raise OperationalError, p).
Proof.
  intros Hnone Hdb.
  assert (Hc : construct env p = (Raise OperationalError, p)).
  { unfold construct, __init__, init_database, sqlite3_connect, bind, BBConfig_get,
      outside, gets, set_self, set_outside, modify, ret, raise.
    rewrite Hnone, Hdb. simpl.
    destruct (snapshots_database_enabled (config (world p))); simpl;
      destruct p; simpl in *; by subst. }
  split; [|done].
  unfold get_desktop_singleton, bind, gets. simpl. rewrite Hnone. by rewrite Hc.
Qed.

Lemma failed_construction_registers_nothing_witness :
  get_desktop_singleton env_store_down (fresh_process world_ready)
  = (Raise OperationalError, fresh_process world_ready)
  ∧ fst (get_desktop_singleton env_ok
           (snd (get_desktop_singleton env_store_down (fresh_process world_ready))))
    = Ok 0%nat.
Proof.
  destruct (failed_construction_registers_nothing env_store_down (fresh_process world_ready))
    as [Hget _]; [reflexivity | reflexivity |].
  split; [exact Hget|]. rewrite Hget. reflexivity.
Defined.

Lemma __init___effects env w :
  db_openable env = true ->
  ∃ d' w',
    __init__ env None (new_object, w) = (Ok tt, (d', w'))
    ∧ d' = mkDesktop (platform_system env) None
             (Some (connections_opened w
                    + if snapshots_database_enabled (config w) then 1 else 0)%nat)
             false [] true
    ∧ config w' = monitoring_forced (config w)
    ∧ collector_threads w' = S (collector_threads w)
    ∧ connections_opened w'
      = (connections_opened w + if snapshots_database_enabled (config w) then 2 else 1)%nat
    ∧ has_snapshots_table w' = snapshots_database_enabled (config w) || has_snapshots_table w
    ∧ snapshots w' = snapshots w
    ∧ log w' = log w.
Proof.
  intros Hdb.
  unfold __init__, init_database, sqlite3_connect, bind, BBConfig_get, outside, gets,
    set_self, set_outside, modify, ret, execute_create_table,
    BBConfig_override_monitor_user_input, start_collector_thread.
  rewrite Hdb. simpl.
  destruct (snapshots_database_enabled (config w)) eqn:Hen; simpl;
    eexists _, _; (split; [reflexivity|]); simpl; unfold monitoring_forced;
    rewrite ?Hen; repeat split; try lia; try (f_equal; f_equal; lia).
  all: unfold with_monitoring, with_queue, with_lock, with_conn, with_base_image,
    with_system, new_object; simpl; f_equal; f_equal; lia.
Qed.

(** X16. The first successful access constructs one object, after the
    objects already there, and registers it.  Whatever the configuration
    says, the object monitors input, one collector thread is started and
    BBConfig's monitor_user_input is left set to True for the process; the
    table is created only when persistence is enabled; two connections are
    opened when it is enabled and one when it is not, and self.conn is the
    last of them; existing rows and the log are untouched. *)
Theorem first_access_constructs env p :
  _instance p = None ->
  db_openable env = true ->
  ∃ d' w',
    get_desktop_singleton env p
    = (Ok (length (heap p)), mkProcess w' (heap p ++ [d']) (Some (length (heap p))))
    ∧ d' = mkDesktop (platform_system env) None
             (Some (connections_opened (world p)
                    + if snapshots_database_enabled (config (world p)) then 1 else 0)%nat)
             false [] true
    ∧ config w' = monitoring_forced (config (world p))
    ∧ collector_threads w' = S (collector_threads (world p))
    ∧ connections_opened w'
      = (connections_opened (world p)
         + if snapshots_database_enabled (config (world p)) then 2 else 1)%nat
    ∧ has_snapshots_table w'
      = snapshots_database_enabled (config (world p)) || has_snapshots_table (world p)
    ∧ snapshots w' = snapshots (world p)
    ∧ log w' = log (world p).
Proof.
  intros Hnone Hdb.
  destruct (__init___effects env (world p) Hdb) as (d' & w' & Hinit & Hrest).
  exists d', w'. split; [|exact Hrest].
  unfold get_desktop_singleton, bind, gets, modify, ret. cbn [fst snd].
  rewrite Hnone. unfold construct. rewrite Hnone, Hinit. reflexivity.
Qed.

Lemma first_access_constructs_witness :
  ∃ d' w',
    get_desktop_singleton env_ok (fresh_process world_ready)
    = (Ok 0%nat, mkProcess w' [d'] (Some 0%nat))
    ∧ conn d' = Some 1%nat
    ∧ connections_opened w' = 2%nat
    ∧ collector_threads w' = 1%nat.
Proof.
  destruct (first_access_constructs env_ok (fresh_process world_ready))
    as (d' & w' & Hget & Hd & _ & Hthreads & Hconn & _); [reflexivity | reflexivity |].
  exists d', w'. split; [exact Hget|]. rewrite Hd.
  split; [reflexivity|]. split; [exact Hconn | exact Hthreads].
Defined.

(** ** Splitting at whitespace *)

Lemma lstrip_blank_app l s :
  Forall (fun c => isspace c = true) l -> lstrip (l ++ s) = lstrip s.
Proof. induction 1 as [|c l Hc _ IH]; simpl; [done|]. by rewrite Hc. Qed.

Lemma token_word_app t s :
  Forall (fun c => isspace c = false) t ->
  match s with [] => True | c :: _ => isspace c = true end ->
  token (t ++ s) = (t, s).
Proof.
  intros Ht Hs. induction Ht as [|c t Hc _ IH]; simpl.
  - destruct s as [|c s]; simpl in *; [done|]. by rewrite Hs.
  - by rewrite Hc, IH.
Qed.

Lemma token_spec s t rest :
  token s = (t, rest) ->
  s = t ++ rest ∧ Forall (fun c => isspace c = false) t
  ∧ match rest with [] => True | c :: _ => isspace c = true end.
Proof.
  revert t rest. induction s as [|c s IH]; intros t rest; simpl.
  - intros [= <- <-]. done.
  - destruct (isspace c) eqn:Hc.
    + intros [= <- <-]. done.
    + destruct (token s) as [t' rest'] eqn:Htok. intros [= <- <-].
      destruct (IH _ _ eq_refl) as (-> & Ht & Hr). repeat split; [|done]. by constructor.
Qed.

Lemma lstrip_length s : (length (lstrip s) ≤ length s)%nat.
Proof. induction s as [|c s IH]; simpl; [lia|]. destruct (isspace c); simpl; lia. Qed.

Lemma lstrip_cons s c rest : lstrip s = c :: rest -> isspace c = false.
Proof.
  induction s as [|c' s IH]; simpl; [done|].
  destruct (isspace c') eqn:Hc'; [done|]. by intros [= <- <-].
Qed.

Lemma token_rest_shorter s c rest t rest' :
  lstrip s = c :: rest -> token (c :: rest) = (t, rest') ->
  (length rest' < length s)%nat.
Proof.
  intros Hl Htok. pose proof (lstrip_length s) as Hlen. rewrite Hl in Hlen.
  pose proof (lstrip_cons _ _ _ Hl) as Hc. simpl in Htok. rewrite Hc in Htok.
  destruct (token rest) as [t' r'] eqn:Ht. injection Htok as <- <-.
  destruct (token_spec _ _ _ Ht) as (Heq & _ & _).
  apply (f_equal length) in Heq. rewrite length_app in Heq. simpl in Hlen. lia.
Qed.

Lemma split_whitespace_fuel m n s :
  (length s ≤ m)%nat -> (length s ≤ n)%nat ->
  split_whitespace m s = split_whitespace n s.
Proof.
  revert n s. induction m as [|m IH]; intros n s Hm Hn.
  - destruct s; [|simpl in Hm; lia]. by destruct n.
  - destruct n as [|n].
    + destruct s; [done | simpl in Hn; lia].
    + cbn [split_whitespace]. destruct (lstrip s) as [|c rest] eqn:Hl; [done|].
      destruct (token (c :: rest)) as [t rest'] eqn:Htok.
      pose proof (token_rest_shorter _ _ _ _ _ Hl Htok).
      f_equal. apply IH; lia.
Qed.

(** More splits allowed than the string has characters change nothing. *)
Lemma split_whitespace_enough n s :
  (length s ≤ n)%nat -> split_whitespace n s = split s.
Proof. intros Hn. unfold split. by apply split_whitespace_fuel. Qed.

Lemma split_head_None line : head (split line) = None ↔ lstrip line = [].
Proof.
  unfold split. destruct line as [|c line]; [done|].
  change (length (c :: line)) with (S (length line)).
  cbn [split_whitespace]. destruct (lstrip (c :: line)) as [|c' rest]; [done|].
  destruct (token (c' :: rest)). done.
Qed.

Lemma split_whitespace_nil n line : split_whitespace n line = [] ↔ lstrip line = [].
Proof.
  destruct n; cbn [split_whitespace]; destruct (lstrip line) as [|c rest]; try done.
  destruct (token (c :: rest)). done.
Qed.

Lemma window_of_line_cases line :
  (lstrip line = [] ∧ window_of_line line = Raises IndexError)
  ∨ (lstrip line ≠ [] ∧ ∃ win, window_of_line line = Returns win).
Proof.
  unfold window_of_line. destruct (lstrip line) as [|c rest] eqn:Hl.
  - left. split; [done|]. by rewrite (proj2 (split_head_None line) Hl).
  - right. split; [done|].
    destruct (head (split line)) as [id|] eqn:Hh.
    2:{ apply split_head_None in Hh. congruence. }
    destruct (last (split_whitespace 3 line)) as [t|] eqn:Hlast; [eauto|].
    apply last_None in Hlast. apply split_whitespace_nil in Hlast. congruence.
Qed.

Lemma windows_of_lines_cases lines :
  (Exists (fun line => lstrip line = []) lines ∧ windows_of_lines lines = Raises IndexError)
  ∨ (Forall (fun line => lstrip line ≠ []) lines
     ∧ ∃ wins, windows_of_lines lines = Returns wins ∧ length wins = length lines).
Proof.
  induction lines as [|line lines IH]; simpl.
  - right. split; [constructor|]. by exists [].
  - destruct (window_of_line_cases line) as [[Hb ->]|[Hn [win ->]]].
    + left. split; [by left | done].
    + destruct IH as [[Hex ->]|[Hall (wins & -> & Hlen)]].
      * left. split; [by right | done].
      * right. split; [by constructor|]. exists (win :: wins). simpl. by rewrite Hlen.
Qed.

Lemma blanks_start b s : blanks b -> blank_start (b ++ s).
Proof.
  intros [Hne Hall]. destruct b as [|c b]; [done|]. simpl.
  by inversion Hall as [|? ? [? _] _].
Qed.

Lemma blanks_space b : blanks b -> Forall (fun c => isspace c = true) b.
Proof. intros [_ Hall]. eapply Forall_impl; [exact Hall|]. by intros c [? _]. Qed.

Lemma lstrip_word_app t s : word t -> lstrip (t ++ s) = t ++ s.
Proof.
  intros [Hne Hall]. destruct t as [|c t]; [done|].
  inversion Hall as [|? ? Hc _]; subst. simpl. by rewrite Hc.
Qed.

Lemma split_whitespace_step n b t s :
  Forall (fun c => isspace c = true) b -> word t -> blank_start s ->
  split_whitespace (S n) (b ++ t ++ s) = t :: split_whitespace n s.
Proof.
  intros Hb Ht Hs. cbn [split_whitespace].
  rewrite lstrip_blank_app, lstrip_word_app by done.
  destruct Ht as [Hne Hall]. destruct t as [|c t]; [done|].
  pose proof (token_word_app (c :: t) s Hall Hs) as Htok.
  cbn [app] in *. by rewrite Htok.
Qed.

Lemma split_whitespace_first n t s :
  word t -> blank_start s ->
  split_whitespace (S n) (t ++ s) = t :: split_whitespace n s.
Proof. intros Ht Hs. by apply (split_whitespace_step n [] t s). Qed.

Lemma head_split_word t s :
  word t -> blank_start s -> head (split (t ++ s)) = Some t.
Proof.
  intros Ht Hs. unfold split.
  destruct (length (t ++ s)) as [|n] eqn:Hlen.
  - destruct Ht as [Hne _]. destruct t; [done | discriminate].
  - by rewrite split_whitespace_first.
Qed.


Lemma split_whitespace_blank n b :
  Forall (fun c => isspace c = true) b -> split_whitespace n b = [].
Proof.
  intros Hb. apply split_whitespace_nil.
  rewrite <- (app_nil_r b). by rewrite lstrip_blank_app.
Qed.














(** ** Listing the open windows on Linux *)

(** X18. What [_get_linux_windows] raises and when.  A failing wmctrl
    (CalledProcessError) gives the empty list; any other exception of the
    call (a missing wmctrl, undecodable output) leaves the function.  On the
    text of wmctrl, the function either returns one entry per line of the
    stripped text or raises IndexError, and it raises exactly when one of
    those lines is blank: in particular when the output is empty, which is
    what wmctrl prints when no window is open. *)
Theorem linux_windows_errors :
  _get_linux_windows (Raises CalledProcessError) = Returns []
  ∧ (∀ e, e ≠ CalledProcessError -> _get_linux_windows (Raises e) = Raises e)
  ∧ (∀ text, Forall (fun c => isspace c = true) text ->
       _get_linux_windows (Returns text) = Raises IndexError)
  ∧ (∀ text,
       (Exists (fun line => lstrip line = []) (split_on newline (strip text))
        ∧ _get_linux_windows (Returns text) = Raises IndexError)
       ∨ (Forall (fun line => lstrip line ≠ []) (split_on newline (strip text))
          ∧ ∃ wins, _get_linux_windows (Returns text) = Returns wins
                    ∧ length wins = length (split_on newline (strip text)))).
Proof.
  split; [done|]. split; [intros e He; by destruct e|]. split.
  - intros text Hblank. unfold _get_linux_windows.
    assert (Hs : strip text = []).
    { unfold strip, rstrip. rewrite <- (app_nil_r text), lstrip_blank_app by done. done. }
    rewrite Hs. reflexivity.
  - intros text. apply windows_of_lines_cases.
Qed.

Lemma linux_windows_errors_witness :
  _get_linux_windows (Returns []) = Raises IndexError
  ∧ _get_linux_windows (Raises FileNotFoundError) = Raises FileNotFoundError.
Proof.
  destruct linux_windows_errors as (_ & Hother & Hblank & _).
  split.
  - apply (Hblank []). constructor.
  - apply (Hother FileNotFoundError). discriminate.
Defined.





(** X20. A window without a title is listed under its host name: for a
    line that ends after the host field, the title is the host. *)
Theorem untitled_window_gets_host_as_title id sep1 desktop sep2 host trailing :
  word id -> blanks sep1 -> word desktop -> blanks sep2 -> word host ->
  Forall (fun c => isspace c = true) trailing ->
  window_of_line (id ++ sep1 ++ desktop ++ sep2 ++ host ++ trailing)
  = Returns (mkLinuxWindow id host).
Proof.
  intros Hid Hs1 Hdesk Hs2 Hhost Htr.
  assert (Hbs : blank_start trailing).
  { destruct Htr as [|c tr Hc _]; [done|]. exact Hc. }
  unfold window_of_line.
  rewrite head_split_word; [|done|by apply blanks_start].
  rewrite split_whitespace_first; [|done|by apply blanks_start].
  rewrite (split_whitespace_step 1 sep1 desktop);
    [|by apply blanks_space|done|by apply blanks_start].
  rewrite (split_whitespace_step 0 sep2 host); [|by apply blanks_space|done|done].
  by rewrite (split_whitespace_blank 0 trailing Htr).
Qed.

Lemma untitled_window_gets_host_as_title_witness :
  window_of_line (codes "0x03c00003  0 host ")
  = Returns (mkLinuxWindow (codes "0x03c00003") (codes "host")).
Proof.
  apply (untitled_window_gets_host_as_title (codes "0x03c00003") (codes "  ") (codes "0")
           (codes " ") (codes "host") (codes " ")).
  - split; [discriminate | repeat constructor].
  - split; [discriminate | repeat constructor; discriminate].
  - split; [discriminate | repeat constructor].
  - split; [discriminate | repeat constructor; discriminate].
  - split; [discriminate | repeat constructor].
  - repeat constructor.
Defined.

(** ** Clicking a button *)

Section ClickButtonFacts.
Variable lower : pystr -> pystr.

Lemma search_first_match env button_text ocr_data i before text after s x y width height :
  Forall (fun t => matches lower button_text t = false) before ->
  matches lower button_text text = true ->
  data_left ocr_data !! (i + length before)%nat = Some x ->
  data_top ocr_data !! (i + length before)%nat = Some y ->
  data_width ocr_data !! (i + length before)%nat = Some width ->
  data_height ocr_data !! (i + length before)%nat = Some height ->
  click_fault env = None ->
  search lower env button_text ocr_data i (before ++ text :: after) s
  = (Returns true,
     ui_logged (ClickedAt button_text (x + width / 2) (y + height / 2))
               (clicked (x + width / 2) (y + height / 2) s)).
Proof.
  intros Hbefore Hm. revert i.
  induction Hbefore as [|t before Ht _ IH]; intros i Hx Hy Hw Hh Hclick; simpl.
  - rewrite Hm. rewrite Nat.add_0_r in *. by rewrite Hx, Hy, Hw, Hh, Hclick.
  - rewrite Ht. apply IH; try done.
    all: by replace (S i + length before)%nat with (i + length (t :: before))%nat
           by (simpl; lia).
Qed.

(** X21. click_button clicks the first OCR entry whose text, stripped and
    lowered, equals the lowered button text: with the geometry of that
    entry present and the click going through, it returns True after one
    click at (left + width // 2, top + height // 2), logged after the
    search line; later entries are not looked at.  For a box of
    non-negative size that point lies in the box. *)
Theorem click_button_first_match env button_text ocr_data before text after s
    x y width height :
  screen_data env = Returns ocr_data ->
  click_fault env = None ->
  data_text ocr_data = before ++ text :: after ->
  Forall (fun t => matches lower button_text t = false) before ->
  matches lower button_text text = true ->
  data_left ocr_data !! length before = Some x ->
  data_top ocr_data !! length before = Some y ->
  data_width ocr_data !! length before = Some width ->
  data_height ocr_data !! length before = Some height ->
  click_button lower env button_text s
  = (true,
     mkPointer (clicks s ++ [(x + width / 2, y + height / 2)])
               (ui_log s ++ [Searching button_text;
                             ClickedAt button_text (x + width / 2) (y + height / 2)]))
  ∧ (0 ≤ width -> 0 ≤ height ->
     x ≤ x + width / 2 ≤ x + width ∧ y ≤ y + height / 2 ≤ y + height).
Proof.
  intros Hdata Hclick Htexts Hbefore Hm Hx Hy Hw Hh. split.
  - unfold click_button. rewrite Hdata, Htexts.
    rewrite (search_first_match env button_text ocr_data 0 before text after _
               x y width height); try done.
    unfold ui_logged, clicked. simpl. by rewrite <- app_assoc.
  - intros Hw0 Hh0.
    pose proof (Z.div_pos width 2 Hw0 ltac:(lia)).
    pose proof (Z.div_pos height 2 Hh0 ltac:(lia)).
    pose proof (Z.div_le_upper_bound width 2 width ltac:(lia) ltac:(lia)).
    pose proof (Z.div_le_upper_bound height 2 height ltac:(lia) ltac:(lia)).
    lia.
Qed.



Lemma search_gives_up env button_text ocr_data i before text after s e :
  Forall (fun t => matches lower button_text t = false) before ->
  matches lower button_text text = true ->
  click_fault env = Some e ∨ data_left ocr_data !! (i + length before)%nat = None ->
  ∃ e', search lower env button_text ocr_data i (before ++ text :: after) s = (Raises e', s).
Proof.
  intros Hbefore Hm. revert i.
  induction Hbefore as [|t before Ht _ IH]; intros i Hfail; simpl.
  - rewrite Hm. rewrite Nat.add_0_r in Hfail.
    destruct Hfail as [Hfault|Hx].
    + rewrite Hfault.
      destruct (data_left ocr_data !! i), (data_top ocr_data !! i),
        (data_width ocr_data !! i), (data_height ocr_data !! i); eauto.
    + rewrite Hx. eauto.
  - rewrite Ht. apply IH.
    by replace (S i + length before)%nat with (i + S (length before))%nat by lia.
Qed.

(** X23. click_button gives up at the first matching entry: when the click
    on it raises, or its geometry is missing, the function logs the error
    and returns False without a click, even if a later entry matches and
    could have been clicked. *)
Theorem click_button_gives_up env button_text ocr_data before text after s e :
  screen_data env = Returns ocr_data ->
  data_text ocr_data = before ++ text :: after ->
  Forall (fun t => matches lower button_text t = false) before ->
  matches lower button_text text = true ->
  click_fault env = Some e ∨ data_left ocr_data !! length before = None ->
  ∃ e',
    click_button lower env button_text s
    = (false, mkPointer (clicks s)
                        (ui_log s ++ [Searching button_text; ErrorFinding button_text e'])).
Proof.
  intros Hdata Htexts Hbefore Hm Hfail.
  destruct (search_gives_up env button_text ocr_data 0 before text after
              (ui_logged (Searching button_text) s) e Hbefore Hm Hfail)
    as (e' & Hsearch).
  exists e'. unfold click_button. rewrite Hdata, Htexts, Hsearch.
  unfold ui_logged. simpl. by rewrite <- app_assoc.
Qed.

End ClickButtonFacts.

Lemma click_button_first_match_witness :
  click_button ascii_lower screen_ok (codes "ok") idle_pointer
  = (true, mkPointer [(110, 58)]
                     [Searching (codes "ok"); ClickedAt (codes "ok") 110 58]).
Proof.
  destruct (click_button_first_match ascii_lower screen_ok (codes "ok") dialog_data
              [codes "Cancel"] (codes " OK ") [codes "ok"] idle_pointer 100 50 21 17)
    as [Hrun _];
    [reflexivity | reflexivity | reflexivity | repeat constructor | reflexivity
    | reflexivity | reflexivity | reflexivity | reflexivity | exact Hrun].
Defined.

Lemma click_button_gives_up_witness :
  ∃ e',
    click_button ascii_lower screen_failsafe (codes "ok") idle_pointer
    = (false, mkPointer [] [Searching (codes "ok"); ErrorFinding (codes "ok") e']).
Proof.
  apply (click_button_gives_up ascii_lower screen_failsafe (codes "ok") dialog_data
           [codes "Cancel"] (codes " OK ") [codes "ok"] idle_pointer FailSafeException).
  - reflexivity.
  - reflexivity.
  - repeat constructor.
  - reflexivity.
  - left. reflexivity.
Defined.
